(** * WhatsApp chat analyzer: the chat parser and the Bangla classifier

    A shallow embedding of [src/stream.py]: [is_bangla_text],
    [parse_whatsapp_chat] and [filter_bangla_messages], together with the
    parts of the Python runtime they call.

    - A [str] is a list of code points. [str.strip], [str.isspace],
      [str.split], [str.join] and [in] on strings are functions on such
      lists.
    - [re.match] is a backtracking matcher with greedy repetitions and
      numbered groups; the header pattern is a term of its syntax.
    - [a / b] on integers is the correctly rounded binary64 quotient, in an
      error monad where it raises on a zero divisor.
    - The tables of the interpreter's Unicode database the program reads
      (decimal digits, lowercase mapping) are the fields of a class; the
      general theorems hold for every instance, and the sample chats are
      run on the instance for the ASCII and Bengali blocks. *)

From Stdlib Require Import String Ascii ZArith NArith Lia Bool QArith List.
From Stdlib Require Import Sorted Permutation.
From Stdlib Require Floats.
From ExtLib Require Import Structures.Monad Structures.MonadExc Data.Monads.EitherMonad.
Import ListNotations.
Import MonadNotation.
Local Open Scope monad_scope.
Local Open Scope Z_scope.

(** ** Python strings

    A [str] is a sequence of Unicode code points. *)

Definition char := N.
Definition str := list char.

(** A literal whose characters are all ASCII. *)
Definition u (s : string) : str := map N_of_ascii (list_ascii_of_string s).

(** Truth value of a string: non-empty. *)
Definition truthy (s : str) : bool :=
match s with [] => false | _ :: _ => true end.

(** [len(s)]. *)
Definition len (s : str) : Z := Z.of_nat (length s).

Module Py.

(** [ch.isspace()] for one character; the same set is what [str.strip()]
    removes and what the regular-expression class [\s] matches:
    U+0009..U+000D, U+001C..U+0020, U+0085, U+00A0, U+1680, U+2000..U+200A,
    U+2028, U+2029, U+202F, U+205F, U+3000. *)
Definition isspace (c : char) : bool :=
(((0x09 <=? c) && (c <=? 0x0D)) || ((0x1C <=? c) && (c <=? 0x20))
 || (c =? 0x85) || (c =? 0xA0) || (c =? 0x1680)
 || ((0x2000 <=? c) && (c <=? 0x200A))
 || (c =? 0x2028) || (c =? 0x2029) || (c =? 0x202F) || (c =? 0x205F)
 || (c =? 0x3000))%N.

(** [s.isspace()]: at least one character and all of them whitespace. *)
Definition str_isspace (s : str) : bool := truthy s && forallb isspace s.

Fixpoint lstrip (s : str) : str :=
match s with
| c :: s' => if isspace c then lstrip s' else s
| [] => []
end.

Definition rstrip (s : str) : str := rev (lstrip (rev s)).

(** [s.strip()]. *)
Definition strip (s : str) : str := rstrip (lstrip s).

Fixpoint startswith (p s : str) : bool :=
match p, s with
| [], _ => true
| a :: p', b :: s' => (a =? b)%N && startswith p' s'
| _ :: _, [] => false
end.

(** [needle in hay]: substring test. *)
Fixpoint contains (needle hay : str) : bool :=
startswith needle hay ||
match hay with
| [] => false
| _ :: hay' => contains needle hay'
end.

(** [s.split(sep)] for a separator of one character: always at least one
    piece. *)
Fixpoint split (sep : char) (s : str) : list str :=
match s with
| [] => [[]]
| c :: s' =>
    if (c =? sep)%N then [] :: split sep s'
    else match split sep s' with
         | piece :: pieces => (c :: piece) :: pieces
         | [] => [[c]]
         end
end.

(** [sep.join(pieces)]. *)
Fixpoint join (sep : str) (pieces : list str) : str :=
match pieces with
| [] => []
| [piece] => piece
| piece :: rest => piece ++ sep ++ join sep rest
end.

(** Exceptions the modelled operations can raise. *)
Inductive exn := ZeroDivisionError | OverflowError.

Definition result := sum exn.

(** *** Floats

    A finite binary64 value, written [(-1)^neg * sig * 2^exp]. The
    division below returns no other kind of float. *)
Record float := mkfloat { neg : bool; sig : Z; exp : Z }.

(** [x * 2^k] for [k >= 0], [x] otherwise. *)
Definition shl (x k : Z) : Z := x * 2 ^ Z.max 0 k.

(** The integer nearest to [n / d], ties to the even one ([d > 0]). *)
Definition round_half_even (n d : Z) : Z :=
let q := n / d in
let r := n mod d in
if (d <? 2 * r) || ((d =? 2 * r) && Z.odd q) then q + 1 else q.

(** [a / b] on two integers: the binary64 value nearest to the exact
    quotient (ties to even), with 53 significant bits and the smallest
    exponent -1074; [ZeroDivisionError] for a zero divisor and
    [OverflowError] when the quotient is beyond the largest float. *)
Definition truediv (a b : Z) : result float :=
if b =? 0 then raise ZeroDivisionError
else if a =? 0 then ret (mkfloat (b <? 0) 0 0)
else
  let n := Z.abs a in
  let d := Z.abs b in
  let k := Z.log2 n - Z.log2 d in
  (* floor (log2 (n / d)) *)
  let fl := if shl d k <=? shl n (- k) then k else k - 1 in
  let e := Z.max (fl - 52) (-1074) in
  let m := round_half_even (shl n (- e)) (shl d e) in
  if shl (2 ^ 1024) (- e) <=? shl m e then raise OverflowError
  else ret (mkfloat (xorb (a <? 0) (b <? 0)) m e).

(** The value of [x] in units of [2^e0], for [e0 <= exp x]. *)
Definition scaled (x : float) (e0 : Z) : Z :=
(if neg x then - sig x else sig x) * 2 ^ (exp x - e0).

(** [x >= y]. *)
Definition float_ge (x y : float) : bool :=
let e0 := Z.min (exp x) (exp y) in
scaled y e0 <=? scaled x e0.

(** The literal [0.25]. *)
Definition quarter : float := mkfloat false (2 ^ 52) (-54).

(** The value as a binary64 number of the kernel, to compare [truediv]
    with the hardware division. *)
Definition to_binary64 (x : float) : PrimFloat.float :=
let v := FloatOps.Z.ldexp (PrimFloat.of_uint63 (Uint63.of_Z (sig x))) (exp x) in
if neg x then PrimFloat.opp v else v.

(** [truediv a b] is the binary64 quotient of [a] and [b] converted to
    floats (both below [2^53], so the conversions are exact). *)
Definition same_as_binary64 (a b : Z) : bool :=
match truediv a b with
| inr x =>
    PrimFloat.eqb (to_binary64 x)
      (PrimFloat.div (PrimFloat.of_uint63 (Uint63.of_Z a))
                     (PrimFloat.of_uint63 (Uint63.of_Z b)))
| inl _ => false
end.

(** [a == b] on strings. *)
Definition eqb (a b : str) : bool :=
if list_eq_dec N.eq_dec a b then true else false.

(** [a < b] on strings: the first differing code point decides, and a
    proper prefix is smaller. *)
Fixpoint ltb (a b : str) : bool :=
match a, b with
| _, [] => false
| [], _ :: _ => true
| x :: a', y :: b' => (x <? y)%N || ((x =? y)%N && ltb a' b')
end.

(** [sorted(l)] on strings: ascending, equal values in their order. *)
Fixpoint insert (x : str) (l : list str) : list str :=
match l with
| [] => [x]
| y :: l' => if ltb y x then y :: insert x l' else x :: l
end.

Definition sorted (l : list str) : list str := fold_right insert [] l.

(** [list(set(l))]: every value of [l] once. The interpreter lists a set
    in an order of its own (by hash); the model takes the order of [l]. *)
Definition set_list (l : list str) : list str := nodup (list_eq_dec N.eq_dec) l.

(** A float or an infinity, as float arithmetic returns it. *)
Inductive xfloat := Finite (x : float) | Infinity (negative : bool).

(** [x * y] on two finite floats: the binary64 value nearest to the exact
    product, an infinity when it is out of range. *)
Definition fmul (x y : float) : xfloat :=
let s := xorb (neg x) (neg y) in
if (sig x =? 0) || (sig y =? 0) then Finite (mkfloat s 0 0)
else
  let e := exp x + exp y in
  match truediv (shl (sig x * sig y) e) (shl 1 (- e)) with
  | inr p => Finite (mkfloat s (sig p) (exp p))
  | inl _ => Infinity s
  end.

(** A number: an [int] or a [float]. *)
Inductive number := Int (z : Z) | Float (x : xfloat).

(** [fmul x y] is the binary64 product of the kernel. *)
Definition same_product_as_binary64 (x y : float) : bool :=
match fmul x y with
| Finite p => PrimFloat.eqb (to_binary64 p) (PrimFloat.mul (to_binary64 x) (to_binary64 y))
| Infinity _ => false
end.

End Py.

(** ** The interpreter's Unicode database

    Two tables of the interpreter that the program reads and the
    repository does not contain: the decimal digits (general category Nd,
    the regular-expression class [\d]) and the lowercase mapping behind
    [str.lower()]. *)
Class UnicodeData := {
  isdecimal : char -> bool;
  lower : str -> str
}.

(** The database restricted to the ASCII and Bengali blocks, where only
    [0-9] and U+09E6..U+09EF are decimal digits and only [A-Z] have a
    lowercase form; used to run the model on text of these two blocks. *)
Definition ascii_tolower (c : char) : char :=
if ((0x41 <=? c) && (c <=? 0x5A))%N then (c + 32)%N else c.

Definition ascii_bengali : UnicodeData := {|
  isdecimal c := (((0x30 <=? c) && (c <=? 0x39)) || ((0x9E6 <=? c) && (c <=? 0x9EF)))%N;
  lower s := map ascii_tolower s
|}.

(** The ASCII and Bengali blocks. *)
Definition in_blocks (c : char) : bool :=
((c <? 128) || ((0x0980 <=? c) && (c <=? 0x09FF)))%N.

(** A database that is, on the two blocks, what [ascii_bengali] says. *)
Definition agrees_on_blocks (ucd : UnicodeData) : Prop :=
(forall c, in_blocks c = true -> @isdecimal ucd c = @isdecimal ascii_bengali c)
/\ (forall s, forallb in_blocks s = true -> @lower ucd s = @lower ascii_bengali s).

(** ** The classifier *)

Section Classifier.
Context {ucd : UnicodeData}.

Definition system_keywords : list str := [
  u "Messages and calls are end-to-end encrypted";
  u "created group";
  u "were added";
  u "left";
  u "changed";
  u "<Media omitted>";
  u "Waiting for this message";
  u "This message was deleted";
  u "changed to"
].

(** The characters that are not counted: [.,!?;:@#$%^&*()[]{}+-=/\|<>~`]
    followed by the double and the single quote. *)
Definition punctuation : str :=
u ".,!?;:@#$%^&*()[]{}+-=/\|<>~`" ++ [0x22%N] ++ u "'".

(** The test of the counting loop on one character. *)
Definition counted (c : char) : bool :=
truthy (Py.strip [c]) && negb (Py.str_isspace [c])
&& negb (Py.contains [c] punctuation).

Definition is_bangla_char (c : char) : bool :=
((0x0980 <=? c) && (c <=? 0x09FF))%N.

(** One iteration of [for char in text], on [(bangla_chars, total_chars)]. *)
Definition count_step (acc : Z * Z) (c : char) : Z * Z :=
let '(bangla_chars, total_chars) := acc in
if counted c then
  (if is_bangla_char c then bangla_chars + 1 else bangla_chars, total_chars + 1)
else acc.

Definition count_chars (text : str) : Z * Z := fold_left count_step text (0, 0).

(** [for keyword in system_keywords: if keyword.lower() in text.lower()]. *)
Definition has_system_keyword (text : str) : bool :=
existsb (fun keyword => Py.contains (lower keyword) (lower text)) system_keywords.

Definition is_bangla_text (text : str) : Py.result bool :=
if negb (truthy text) || (len (Py.strip text) =? 0) then ret false
else if has_system_keyword text then ret false
else
  let '(bangla_chars, total_chars) := count_chars text in
  if total_chars =? 0 then ret false
  else
    ratio <- Py.truediv bangla_chars total_chars ;;
    ret (Py.float_ge ratio Py.quarter).

End Classifier.

(** ** Regular expressions

    The backtracking matcher of [re], for the constructs the header
    pattern uses. A repetition is greedy and ranges over one character
    class; groups are numbered. *)
Module Re.

Inductive regex :=
| Eps
| Bol                                                  (* ^ *)
| Eol                                                  (* $ *)
| Chr (p : char -> bool)                               (* one character *)
| Rep (p : char -> bool) (lo : nat) (hi : option nat)  (* p{lo,hi}, p*, p+ *)
| Cat (r1 r2 : regex)
| Alt (r1 r2 : regex)                                  (* r1|r2 *)
| Grp (i : nat) (r : regex).                           (* ( r ) *)

Definition captures := list (nat * str).

Section Matcher.
Context {A : Type}.

(** Greedy repetition: take one more character while the class and the
    upper bound allow it, and give characters back one at a time when the
    rest of the pattern fails. *)
Fixpoint rep (p : char -> bool) (lo : nat) (hi : option nat) (pos : nat) (s : str)
  (k : nat -> str -> option A) : option A :=
let stop := match lo with O => k pos s | S _ => None end in
match s with
| c :: s' =>
    if p c && negb (match hi with Some O => true | _ => false end) then
      match rep p (Nat.pred lo) (option_map Nat.pred hi) (S pos) s' k with
      | Some res => Some res
      | None => stop
      end
    else stop
| [] => stop
end.

(** [rmatch r pos s caps k]: match [r] at offset [pos], where [s] is what
    is left of the subject, then continue with [k]. *)
Fixpoint rmatch (r : regex) (pos : nat) (s : str) (caps : captures)
  (k : nat -> str -> captures -> option A) : option A :=
match r with
| Eps => k pos s caps
| Bol => if Nat.eqb pos 0 then k pos s caps else None
| Eol =>
    (* the end of the subject, or just before a newline that ends it *)
    match s with
    | [] => k pos s caps
    | [c] => if (c =? 10)%N then k pos s caps else None
    | _ => None
    end
| Chr p =>
    match s with
    | c :: s' => if p c then k (S pos) s' caps else None
    | [] => None
    end
| Rep p lo hi => rep p lo hi pos s (fun pos' s' => k pos' s' caps)
| Cat r1 r2 => rmatch r1 pos s caps (fun pos' s' caps' => rmatch r2 pos' s' caps' k)
| Alt r1 r2 =>
    match rmatch r1 pos s caps k with
    | Some res => Some res
    | None => rmatch r2 pos s caps k
    end
| Grp i r =>
    rmatch r pos s caps
      (fun pos' s' caps' => k pos' s' ((i, firstn (pos' - pos) s) :: caps'))
end.

End Matcher.

(** [re.match(r, s)]: a match that starts at the first character. *)
Definition re_match (r : regex) (s : str) : option captures :=
rmatch r 0 s [] (fun _ _ caps => Some caps).

(** [m.group(i)]. *)
Fixpoint group (caps : captures) (i : nat) : str :=
match caps with
| (j, text) :: caps' => if Nat.eqb i j then text else group caps' i
| [] => []
end.

Fixpoint seq (rs : list regex) : regex :=
match rs with
| [] => Eps
| [r] => r
| r :: rs' => Cat r (seq rs')
end.

(** A literal character. *)
Definition lit (s : string) : regex :=
seq (map (fun c => Chr (N.eqb c)) (u s)).

(** A lowercase ASCII letter under [re.IGNORECASE]: itself or its capital. *)
Definition ilit (s : string) : regex :=
seq (map (fun c => Chr (fun ch => (ch =? c) || (ch =? c - 32))%N) (u s)).

(** [[^c]] and [.] *)
Definition other_than (c : char) : char -> bool := fun ch => negb (ch =? c)%N.
Definition any : char -> bool := other_than 10%N.

(** [span r pos s caps pos' s' caps']: the pattern [r] can match, from
    offset [pos] where [s] is left of the subject, up to offset [pos']
    where [s'] is left, taking the captures from [caps] to [caps']. It
    describes every path the matcher may take, its first choice or not. *)
Fixpoint span (r : regex) (pos : nat) (s : str) (caps : captures)
  (pos' : nat) (s' : str) (caps' : captures) : Prop :=
match r with
| Eps => pos' = pos /\ s' = s /\ caps' = caps
| Bol => pos = O /\ pos' = pos /\ s' = s /\ caps' = caps
| Eol => (s = [] \/ s = [10%N]) /\ pos' = pos /\ s' = s /\ caps' = caps
| Chr p => exists c, s = c :: s' /\ p c = true /\ pos' = S pos /\ caps' = caps
| Rep p lo hi =>
    exists w, s = w ++ s' /\ forallb p w = true
              /\ (lo <= length w)%nat
              /\ match hi with Some h => (length w <= h)%nat | None => True end
              /\ pos' = (pos + length w)%nat /\ caps' = caps
| Cat r1 r2 =>
    exists pos1 s1 caps1,
      span r1 pos s caps pos1 s1 caps1 /\ span r2 pos1 s1 caps1 pos' s' caps'
| Alt r1 r2 => span r1 pos s caps pos' s' caps' \/ span r2 pos s caps pos' s' caps'
| Grp i r =>
    exists caps1,
      span r pos s caps pos' s' caps1
      /\ caps' = (i, firstn (pos' - pos) s) :: caps1
end.

(** A pattern with no capturing group. *)
Fixpoint groupless (r : regex) : bool :=
match r with
| Cat r1 r2 | Alt r1 r2 => groupless r1 && groupless r2
| Grp _ _ => false
| _ => true
end.

(** Two patterns of the same shape whose character classes agree on the
    characters that satisfy [P]. *)
Fixpoint agree (P : char -> bool) (r1 r2 : regex) : Prop :=
match r1, r2 with
| Eps, Eps | Bol, Bol | Eol, Eol => True
| Chr p, Chr q => forall c, P c = true -> p c = q c
| Rep p lo hi, Rep q lo' hi' =>
    lo = lo' /\ hi = hi' /\ forall c, P c = true -> p c = q c
| Cat a b, Cat a' b' | Alt a b, Alt a' b' => agree P a a' /\ agree P b b'
| Grp i r, Grp j r' => i = j /\ agree P r r'
| _, _ => False
end.

End Re.

(** ** The parser *)

Record msg := mkmsg { date : str; time : str; sender : str; message : str }.

Section Parser.
Context {ucd : UnicodeData}.
Import Re.

(** The pattern as the source writes it. *)
Definition pattern_text : string :=
"^(\d{1,2}/\d{1,2}/\d{4}),\s+(\d{1,2}:\d{2}\s*(?:am|pm))\s*-\s*([^:]+):\s*(.*)$".

(** [pattern_text] compiled with [re.IGNORECASE]: four groups, the date,
    the time with its am/pm marker, the sender and the text. *)
Definition pattern : regex :=
seq [ Bol;
      Grp 1 (seq [Rep isdecimal 1 (Some 2%nat); lit "/"; Rep isdecimal 1 (Some 2%nat);
                  lit "/"; Rep isdecimal 4 (Some 4%nat)]);
      lit ","; Rep Py.isspace 1 None;
      Grp 2 (seq [Rep isdecimal 1 (Some 2%nat); lit ":"; Rep isdecimal 2 (Some 2%nat);
                  Rep Py.isspace 0 None; Alt (ilit "am") (ilit "pm")]);
      Rep Py.isspace 0 None; lit "-"; Rep Py.isspace 0 None;
      Grp 3 (Rep (other_than 58%N) 1 None);
      lit ":"; Rep Py.isspace 0 None;
      Grp 4 (Rep any 0 None);
      Eol ].

(** The message a header line starts: the four groups of the match, the
    sender and the text stripped. *)
Definition header (line : str) : option msg :=
match re_match pattern line with
| Some caps =>
    Some {| date := group caps 1;
            time := group caps 2;
            sender := Py.strip (group caps 3);
            message := Py.strip (group caps 4) |}
| None => None
end.

(** [current_msg['message'] += '\n' + line.strip()] *)
Definition append_line (m : msg) (line : str) : msg :=
{| date := date m; time := time m; sender := sender m;
   message := message m ++ [10%N] ++ Py.strip line |}.

(** [messages.append(current_msg)] when a message is under construction. *)
Definition flush (messages : list msg) (current_msg : option msg) : list msg :=
match current_msg with
| Some m => messages ++ [m]
| None => messages
end.

(** One iteration of [for line in lines], on [(messages, current_msg)]. *)
Definition parse_step (st : list msg * option msg) (line : str) : list msg * option msg :=
let '(messages, current_msg) := st in
match header line with
| Some m => (flush messages current_msg, Some m)
| None =>
    match current_msg with
    | Some m => if truthy (Py.strip line) then (messages, Some (append_line m line)) else st
    | None => st
    end
end.

(** The loop and the final append, on the lines of a chat. *)
Definition parse_lines (lines : list str) : list msg :=
let '(messages, current_msg) := fold_left parse_step lines ([], None) in
flush messages current_msg.

Definition parse_whatsapp_chat (chat_text : str) : list msg :=
parse_lines (Py.split 10%N chat_text).

(** [for msg in messages: if is_bangla_text(msg['message']):
    bangla_messages.append(msg)], on the list built so far. *)
Fixpoint filter_loop (bangla_messages messages : list msg) : Py.result (list msg) :=
match messages with
| [] => ret bangla_messages
| m :: rest =>
    b <- is_bangla_text (message m) ;;
    filter_loop (if b then bangla_messages ++ [m] else bangla_messages) rest
end.

Definition filter_bangla_messages (messages : list msg) : Py.result (list msg) :=
filter_loop [] messages.

End Parser.

(** ** The page: statistics, filters and exports

    The part of the script that runs once a chat is parsed, as functions
    of what it reads: the two message lists, the search term and the
    selected sender. *)

Section Page.
Context {ucd : UnicodeData}.

(** [format_phone_number]: both branches return the sender. *)
Definition format_phone_number (sender : str) : str :=
if Py.startswith (u "+880") sender then sender else sender.

(** [(len(bangla_messages)/len(all_messages)*100) if all_messages else 0] *)
Definition percentage (all_messages bangla_messages : list msg) : Py.result Py.number :=
match all_messages with
| _ :: _ =>
    ratio <- Py.truediv (Z.of_nat (length bangla_messages))
                        (Z.of_nat (length all_messages)) ;;
    ret (Py.Float (Py.fmul ratio (Py.mkfloat false 100 0)))
| [] => ret (Py.Int 0)
end.

(** The first entry of the sender selector, U+09B8 U+09AC U+09BE U+0987
    ("everyone"). *)
Definition everyone : str := [0x9B8; 0x9AC; 0x9BE; 0x987]%N.

(** [sorted(list(set([msg['sender'] for msg in bangla_messages])))] *)
Definition all_senders (bangla_messages : list msg) : list str :=
Py.sorted (Py.set_list (map sender bangla_messages)).

(** The entries of the selector: [["everyone"] + all_senders]. *)
Definition sender_options (bangla_messages : list msg) : list str :=
[everyone] ++ all_senders bangla_messages.

(** The two filters, applied in the order of the script. *)
Definition apply_filters (search_term selected_sender : str)
  (bangla_messages : list msg) : list msg :=
let filtered_messages := bangla_messages in
let filtered_messages :=
  if truthy search_term then
    filter (fun m => Py.contains (lower search_term) (lower (message m)))
           filtered_messages
  else filtered_messages in
let filtered_messages :=
  if negb (Py.eqb selected_sender everyone) then
    filter (fun m => Py.eqb (sender m) selected_sender) filtered_messages
  else filtered_messages in
filtered_messages.

(** [max(100, len(msg['message'].split('\n')) * 30)] *)
Definition text_area_height (m : msg) : Z :=
Z.max 100 (Z.of_nat (length (Py.split 10%N (message m))) * 30).


End Page.

(** ** Notions used to state the properties *)

Section Notions.
Context {ucd : UnicodeData}.

(** [m] is the message header [h] started, with lines appended to its
    text. *)
Definition extends (h m : msg) : Prop :=
date m = date h /\ time m = time h /\ sender m = sender h
/\ exists tail, message m = message h ++ tail.

(** The headers of the lines that match the pattern, in line order. *)
Definition header_lines (lines : list str) : list msg :=
flat_map (fun line => match header line with Some h => [h] | None => [] end) lines.

Definition is_header (line : str) : bool :=
match header line with Some _ => true | None => false end.

(** A line with a character that is not whitespace. *)
Definition nonblank (line : str) : bool := truthy (Py.strip line).

(** What the continuation lines add to a text: a newline and the stripped
    line for each non-blank one. *)
Definition continuation (lines : list str) : str :=
concat (map (fun line => [10%N] ++ Py.strip line) (filter nonblank lines)).

(** The messages of a loop state once the loop ends. *)
Definition finish (st : list msg * option msg) : list msg := flush (fst st) (snd st).

(** [m] with another text. *)
Definition with_text (m : msg) (text : str) : msg :=
{| date := date m; time := time m; sender := sender m; message := text |}.

(** What follows the continuation lines of a message: the end of the
    chat or the next header line. *)
Definition starts_afresh (rest : list str) : Prop :=
match rest with
| [] => True
| line :: _ => is_header line = true
end.

(** The classifier answered true. *)
Definition is_bangla (m : msg) : bool :=
match is_bangla_text (message m) with inr true => true | _ => false end.

End Notions.

(** Order-preserving subsequence. *)
Inductive subseq {A : Type} : list A -> list A -> Prop :=
| subseq_nil : subseq [] []
| subseq_skip x l1 l2 : subseq l1 l2 -> subseq l1 (x :: l2)
| subseq_keep x l1 l2 : subseq l1 l2 -> subseq (x :: l1) (x :: l2).

(** The exact comparison [bangla_chars / total_chars >= 1/4] on rationals. *)
Definition ratio_ge_quarter (bangla_chars total_chars : Z) : Prop :=
(1 # 4 <= inject_Z bangla_chars / inject_Z total_chars)%Q.

(** Text of the scenario: Bengali letters by code point. *)
Definition bn (l : list Z) : str := map Z.to_N l.

Definition hello_bn : str := bn [0x9b9; 0x9cd; 0x9af; 0x9be; 0x9b2; 0x9cb].
Definition how_are_you_bn : str :=
bn [0x995; 0x9c7; 0x9ae; 0x9a8; 0x20; 0x986; 0x99b; 0x9c7; 0x9a8].

Definition chat_log : str :=
u "1/2/2024, 9:05 am - Alice: " ++ hello_bn ++ [10%N] ++ how_are_you_bn ++ [10%N]
++ u "2/2/2024, 9:06 am - Bob: hi".

(** Texts on the boundary of the ratio test: one Bengali letter among
    four and among five counted characters. *)
Definition one_of_four : str := [0x995%N] ++ u "a b, c!".
Definition one_of_five : str := [0x995%N] ++ u "a b, c! d".

(** [2^52] times U+0995 followed by [3 * 2^52 + 1] times [x]: [2^54 + 1]
    counted characters, [2^52] of them Bengali. *)
Definition huge_text : str :=
repeat 0x995%N (N.to_nat (2 ^ 52)) ++ repeat 0x78%N (N.to_nat (3 * 2 ^ 52 + 1)).

(** A text in Bengali script that also carries an exclusion keyword. *)
Definition bengali_with_keyword : str := how_are_you_bn ++ u " I LEFT " ++ hello_bn.

(** A chat that opens with a banner; the first message runs over three
    lines and a blank one. *)
Definition banner : str := u "Chat export".
Definition alice_line : str := u "1/2/2024, 9:05 am - Alice: one".
Definition bob_line : str := u "2/2/2024, 9:06 am - Bob: hi".

Definition chat_with_banner : str :=
Py.join [10%N] [banner; alice_line; u "  two  "; u ""; u "three"; bob_line].

(** A chat with no header line. *)
Definition chat_without_header : str := Py.join [10%N] [banner; u ""; u "nothing else"].

(** A header line whose text has whitespace on both sides. *)
Definition padded_line : str := u "1/2/2024, 9:05 am - Alice:  hi  ".

(** The two messages of the scenario. *)
Definition alice_msg : msg :=
{| date := u "1/2/2024"; time := u "9:05 am"; sender := u "Alice";
   message := hello_bn ++ [10%N] ++ how_are_you_bn |}.

Definition bob_msg : msg :=
{| date := u "2/2/2024"; time := u "9:06 am"; sender := u "Bob"; message := u "hi" |}.

(** Shapes of the fields a header line gives. *)
Section Shapes.
Context {ucd : UnicodeData}.

(** Between [lo] and [hi] decimal digits. *)
Definition digits (lo hi : nat) (w : str) : Prop :=
forallb isdecimal w = true /\ (lo <= length w <= hi)%nat.

(** [am] or [pm] in any case. *)
Definition marker (w : str) : Prop :=
map ascii_tolower w = u "am" \/ map ascii_tolower w = u "pm".

Definition date_shape (d : str) : Prop :=
exists d1 d2 d3,
  d = d1 ++ u "/" ++ d2 ++ u "/" ++ d3
  /\ digits 1 2 d1 /\ digits 1 2 d2 /\ digits 4 4 d3.

Definition time_shape (t : str) : Prop :=
exists t1 t2 ws mk,
  t = t1 ++ u ":" ++ t2 ++ ws ++ mk
  /\ digits 1 2 t1 /\ digits 2 2 t2
  /\ forallb Py.isspace ws = true /\ marker mk.

End Shapes.

(** A string that [strip] leaves alone. *)
Definition stripped (s : str) : Prop := Py.strip s = s.

(** A message text as the parser builds it: lines joined by newlines, each
    line stripped, none but the first empty. *)
Definition tidy (text : str) : Prop :=
exists first rest,
  text = Py.join [10%N] (first :: rest)
  /\ ~ In 10%N first /\ stripped first
  /\ Forall (fun p => ~ In 10%N p /\ stripped p /\ p <> []) rest.

(** Two chats, the second starting with a header line. *)
Definition first_chat : str := Py.join [10%N] [banner; alice_line; u "  two  "].
Definition second_chat : str := Py.join [10%N] [bob_line; u "three"; u ""].

(** A list of strings in strictly ascending order. *)
Definition ascending (l : list str) : Prop :=
StronglySorted (fun a b => Py.ltb a b = true) l.

(** Messages of three senders, one of them called "everyone". *)
Definition msg_of (who text : str) : msg :=
{| date := u "1/2/2024"; time := u "9:05 am"; sender := who; message := text |}.

Definition three_senders : list msg :=
[ msg_of (u "Bob") hello_bn; msg_of everyone how_are_you_bn;
  msg_of (u "Alice") hello_bn; msg_of (u "Bob") how_are_you_bn ].



(** The header grammar, stated on the characters of a line and without
    the matcher: [<date>, <time> - <sender>: <text>], that is a date, a
    comma, whitespace, a time, optional whitespace, a dash, a sender part
    that is not empty and has no colon, a colon, and the rest of the line.
    [header_of line h] names the message such a line starts: the date and
    the time as they stand, the sender part and the rest stripped. *)
Section Grammar.
Context {ucd : UnicodeData}.

Definition header_of (line : str) (h : msg) : Prop :=
exists ws1 ws2 raw rest,
  line = date h ++ u "," ++ ws1 ++ time h ++ ws2 ++ u "-" ++ raw ++ u ":" ++ rest
  /\ date_shape (date h) /\ time_shape (time h)
  /\ forallb Py.isspace ws1 = true /\ ws1 <> []
  /\ forallb Py.isspace ws2 = true
  /\ raw <> [] /\ ~ In 58%N raw
  /\ sender h = Py.strip raw /\ message h = Py.strip rest.



End Grammar.

(** The message [alice_line] starts. *)
Definition alice_header : msg :=
{| date := u "1/2/2024"; time := u "9:05 am"; sender := u "Alice"; message := u "one" |}.

(** A chat with blank lines before its first header line. *)
Definition blank_then_bob : str := Py.join [10%N] [u "  "; u ""; bob_line; u "three"].

(** * Properties *)

(** ** Strings *)

Lemma forallb_isspace_lstrip w s :
  forallb Py.isspace w = true -> Py.lstrip (w ++ s) = Py.lstrip s.
Proof.
  induction w as [|c w IH]; simpl; [reflexivity|].
  intros H. apply andb_prop in H. destruct H as [Hc Hw].
  rewrite Hc. auto.
Qed.

Lemma lstrip_nil_iff s : Py.lstrip s = [] <-> forallb Py.isspace s = true.
Proof.
  induction s as [|c s IH]; simpl; [tauto|].
  destruct (Py.isspace c); simpl; [exact IH|].
  split; discriminate.
Qed.

Lemma strip_app_space_l w s :
  forallb Py.isspace w = true -> Py.strip (w ++ s) = Py.strip s.
Proof.
  intros H. unfold Py.strip. now rewrite forallb_isspace_lstrip.
Qed.

Lemma forallb_rev {A} (p : A -> bool) l : forallb p (rev l) = forallb p l.
Proof.
  induction l as [|x l IH]; simpl; [reflexivity|].
  rewrite forallb_app, IH. simpl. rewrite andb_true_r. apply andb_comm.
Qed.

Lemma lstrip_suffix s : exists w, s = w ++ Py.lstrip s /\ forallb Py.isspace w = true.
Proof.
  induction s as [|c s [w [E Hw]]]; simpl.
  - exists []. auto.
  - destruct (Py.isspace c) eqn:Hc.
    + exists (c :: w). simpl. rewrite Hc, Hw. split; [congruence|reflexivity].
    + exists []. auto.
Qed.

Lemma strip_nil_iff s : Py.strip s = [] <-> forallb Py.isspace s = true.
Proof.
  unfold Py.strip, Py.rstrip. split.
  - intros H. apply (f_equal (@rev _)) in H. rewrite rev_involutive in H.
    simpl in H. apply lstrip_nil_iff in H. rewrite forallb_rev in H.
    destruct (lstrip_suffix s) as [w [E Hw]]. rewrite E, forallb_app, Hw, H.
    reflexivity.
  - intros H. apply lstrip_nil_iff in H. rewrite H. reflexivity.
Qed.

Lemma strip_single c : Py.strip [c] = if Py.isspace c then [] else [c].
Proof.
  unfold Py.strip, Py.rstrip. simpl. destruct (Py.isspace c) eqn:Hc; simpl.
  - reflexivity.
  - now rewrite Hc.
Qed.

Lemma len_strip_zero text :
  (len (Py.strip text) =? 0) = forallb Py.isspace text.
Proof.
  unfold len. destruct (forallb Py.isspace text) eqn:H.
  - apply strip_nil_iff in H. now rewrite H.
  - destruct (Py.strip text) eqn:E.
    + apply strip_nil_iff in E. congruence.
    + simpl. reflexivity.
Qed.

Lemma startswith_refl s : Py.startswith s s = true.
Proof. induction s; simpl; [reflexivity|]. now rewrite N.eqb_refl. Qed.

Lemma contains_refl s : Py.contains s s = true.
Proof. destruct s; simpl; [reflexivity|]. now rewrite N.eqb_refl, startswith_refl. Qed.

(** ** The counting loop *)

Lemma counted_spec c :
  counted c = negb (Py.isspace c) && negb (Py.contains [c] punctuation).
Proof.
  unfold counted, Py.str_isspace. rewrite strip_single. simpl.
  destruct (Py.isspace c); reflexivity.
Qed.

Lemma count_step_shift b t b0 t0 c :
  count_step (b0 + b, t0 + t) c =
  (b0 + fst (count_step (b, t) c), t0 + snd (count_step (b, t) c)).
Proof.
  unfold count_step. destruct (counted c); simpl; [|reflexivity].
  destruct (is_bangla_char c); f_equal; lia.
Qed.

Lemma fold_count_shift text : forall b t b0 t0,
  fold_left count_step text (b0 + b, t0 + t) =
  (b0 + fst (fold_left count_step text (b, t)),
   t0 + snd (fold_left count_step text (b, t))).
Proof.
  induction text as [|c text IH]; intros; cbn [fold_left fst snd]; [reflexivity|].
  rewrite count_step_shift.
  destruct (count_step (b, t) c) as [b1 t1]. simpl. apply IH.
Qed.

Lemma count_chars_cons c text :
  count_chars (c :: text) =
  (fst (count_step (0, 0) c) + fst (count_chars text),
   snd (count_step (0, 0) c) + snd (count_chars text)).
Proof.
  unfold count_chars. cbn [fold_left].
  destruct (count_step (0, 0) c) as [b1 t1] eqn:E. cbn [fst snd].
  replace (b1, t1) with (b1 + 0, t1 + 0) by (f_equal; lia).
  apply fold_count_shift.
Qed.

(** The counters stay ordered: [0 <= bangla_chars <= total_chars <= len]. *)
Lemma count_chars_bounds text :
  0 <= fst (count_chars text) <= snd (count_chars text)
  /\ snd (count_chars text) <= len text.
Proof.
  unfold len. induction text as [|c text IH].
  - simpl. lia.
  - rewrite count_chars_cons. cbn [fst snd length].
    unfold count_step. destruct (counted c); [destruct (is_bangla_char c)|];
      cbn [fst snd]; lia.
Qed.

Lemma count_chars_uncounted text :
  forallb (fun c => negb (counted c)) text = true -> count_chars text = (0, 0).
Proof.
  induction text as [|c text IH]; [reflexivity|].
  simpl. intros H. apply andb_prop in H. destruct H as [Hc Ht].
  rewrite count_chars_cons, (IH Ht). unfold count_step.
  destruct (counted c); [discriminate|reflexivity].
Qed.

(** ** True division *)

Lemma shl_nonneg_exp x k : 0 <= k -> Py.shl x k = x * 2 ^ k.
Proof. intros. unfold Py.shl. now rewrite Z.max_r. Qed.

Lemma shl_neg_exp x k : k <= 0 -> Py.shl x k = x.
Proof. intros. unfold Py.shl. rewrite Z.max_l by assumption. simpl. lia. Qed.

Lemma round_half_even_bounds n d :
  0 < d -> n / d <= Py.round_half_even n d <= n / d + 1.
Proof.
  intros. unfold Py.round_half_even.
  destruct ((d <? 2 * (n mod d)) || ((d =? 2 * (n mod d)) && Z.odd (n / d))); lia.
Qed.

(** A quotient of at most one never overflows, and the divisor is only
    rejected when it is zero. *)
Lemma truediv_total a b :
  0 <= a <= b -> b <> 0 -> exists f, Py.truediv a b = inr f.
Proof.
  intros Hab Hb. unfold Py.truediv.
  destruct (Z.eqb_spec b 0); [contradiction|].
  destruct (Z.eqb_spec a 0); [eexists; reflexivity|].
  rewrite (Z.abs_eq a), (Z.abs_eq b) by lia.
  set (k := Z.log2 a - Z.log2 b).
  assert (Hk : k <= 0) by (pose proof (Z.log2_le_mono a b); lia).
  set (fl := if Py.shl b k <=? Py.shl a (- k) then k else k - 1).
  assert (Hfl : fl <= 0) by (subst fl; destruct (_ <=? _); lia).
  set (e := Z.max (fl - 52) (-1074)).
  assert (He : -1074 <= e <= -52) by (subst e; lia).
  rewrite (shl_neg_exp b e), (shl_nonneg_exp a (- e)) by lia.
  set (m := Py.round_half_even (a * 2 ^ (- e)) b).
  rewrite (shl_neg_exp m e), (shl_nonneg_exp _ (- e)) by lia.
  assert (HP : 0 < 2 ^ (- e)) by (apply Z.pow_pos_nonneg; lia).
  assert (Hm : m <= 2 ^ (- e) + 1).
  { pose proof (round_half_even_bounds (a * 2 ^ (- e)) b ltac:(lia)) as [_ Hm].
    fold m in Hm.
    assert (a * 2 ^ (- e) / b <= 2 ^ (- e)).
    { apply Z.div_le_upper_bound; [lia|]. nia. }
    lia. }
  assert (H2 : 2 <= 2 ^ 1024) by (change 2 with (2 ^ 1) at 1; apply Z.pow_le_mono_r; lia).
  destruct (Z.leb_spec (2 ^ 1024 * 2 ^ (- e)) m); [nia|].
  eexists; reflexivity.
Qed.

(** ** The classifier: exclusions, uncounted text, totality *)

Section ClassifierFacts.
Context {ucd : UnicodeData}.

Lemma is_bangla_text_keyword text keyword :
  In keyword system_keywords ->
  Py.contains (lower keyword) (lower text) = true ->
  is_bangla_text text = inr false.
Proof.
  intros Hin Hc. unfold is_bangla_text.
  destruct (negb (truthy text) || (len (Py.strip text) =? 0)); [reflexivity|].
  assert (H : has_system_keyword text = true).
  { unfold has_system_keyword. apply existsb_exists. eauto. }
  rewrite H. reflexivity.
Qed.

Lemma is_bangla_text_total text : exists b, is_bangla_text text = inr b.
Proof.
  unfold is_bangla_text.
  destruct (negb (truthy text) || (len (Py.strip text) =? 0)); [eexists; reflexivity|].
  destruct (has_system_keyword text); [eexists; reflexivity|].
  pose proof (count_chars_bounds text) as [Hb Ht].
  destruct (count_chars text) as [b t]. cbn [fst snd] in *.
  destruct (Z.eqb_spec t 0); [eexists; reflexivity|].
  destruct (truediv_total b t Hb n) as [f Hf].
  rewrite Hf. eexists. reflexivity.
Qed.

Lemma filter_loop_filter messages : forall bangla_messages,
  filter_loop bangla_messages messages =
  inr (bangla_messages ++ filter is_bangla messages).
Proof.
  induction messages as [|m rest IH]; intros acc.
  - cbn. now rewrite app_nil_r.
  - cbn [filter_loop filter]. unfold is_bangla at 1.
    destruct (is_bangla_text_total (message m)) as [b Hb].
    rewrite Hb. cbn. rewrite IH. destruct b; [|reflexivity].
    now rewrite <- app_assoc.
Qed.

Lemma filter_bangla_messages_filter messages :
  filter_bangla_messages messages = inr (filter is_bangla messages).
Proof. apply filter_loop_filter. Qed.

End ClassifierFacts.

Lemma subseq_filter {A} (p : A -> bool) l : subseq (filter p l) l.
Proof.
  induction l as [|x l IH]; simpl; [constructor|].
  destruct (p x); now constructor.
Qed.

(** The exponent chosen by [truediv] normalises the quotient:
    [b <= a * 2^(-fl) < 2 * b]. *)
Lemma floor_log2_ratio a b :
  0 < a <= b ->
  let k := Z.log2 a - Z.log2 b in
  let fl := if Py.shl b k <=? Py.shl a (- k) then k else k - 1 in
  - Z.log2 b - 1 <= fl <= 0 /\ b <= a * 2 ^ (- fl) < 2 * b.
Proof.
  intros Hab k fl.
  assert (Hla : 0 <= Z.log2 a) by apply Z.log2_nonneg.
  assert (Hk : k <= 0) by (pose proof (Z.log2_le_mono a b); lia).
  destruct (Z.log2_spec a ltac:(lia)) as [Ha1 Ha2].
  destruct (Z.log2_spec b ltac:(lia)) as [Hb1 Hb2].
  assert (E : 2 ^ Z.log2 b = 2 ^ Z.log2 a * 2 ^ (- k)).
  { rewrite <- Z.pow_add_r by lia. f_equal. lia. }
  assert (E1 : 2 ^ Z.succ (Z.log2 a) = 2 * 2 ^ Z.log2 a) by (apply Z.pow_succ_r; lia).
  assert (E2 : 2 ^ Z.succ (Z.log2 b) = 2 * 2 ^ Z.log2 b) by (apply Z.pow_succ_r; lia).
  assert (E3 : 2 ^ (- (k - 1)) = 2 * 2 ^ (- k)).
  { replace (- (k - 1)) with (Z.succ (- k)) by lia. apply Z.pow_succ_r; lia. }
  assert (HT : 0 < 2 ^ (- k)) by (apply Z.pow_pos_nonneg; lia).
  subst fl. rewrite (shl_neg_exp b k), (shl_nonneg_exp a (- k)) by lia.
  destruct (Z.leb_spec b (a * 2 ^ (- k))).
  - split; [lia|]. split; [assumption|]. nia.
  - split; [lia|]. rewrite E3. split; nia.
Qed.

Lemma pow2_ge_1 k : 0 <= k -> 1 <= 2 ^ k.
Proof. intros. pose proof (Z.pow_pos_nonneg 2 k); lia. Qed.

(** Below [2^54] the rounded quotient compares with [0.25] as the exact
    one does. *)
Lemma truediv_ge_quarter a b :
  0 <= a <= b -> 0 < b < 2 ^ 54 ->
  exists f, Py.truediv a b = inr f /\ Py.float_ge f Py.quarter = (b <=? 4 * a).
Proof.
  intros Hab Hb. unfold Py.truediv.
  destruct (Z.eqb_spec b 0); [lia|].
  destruct (Z.eqb_spec a 0) as [->|Ha].
  { eexists. split; [reflexivity|].
    destruct (Z.leb_spec b (4 * 0)); [lia|].
    destruct (b <? 0); reflexivity. }
  rewrite (Z.abs_eq a), (Z.abs_eq b) by lia.
  destruct (floor_log2_ratio a b ltac:(lia)) as [Hfl HT].
  set (fl := if Py.shl b (Z.log2 a - Z.log2 b) <=? Py.shl a (- (Z.log2 a - Z.log2 b))
             then Z.log2 a - Z.log2 b else Z.log2 a - Z.log2 b - 1) in *.
  assert (Hlb : Z.log2 b < 54) by (apply Z.log2_lt_pow2; lia).
  rewrite (Z.max_l (fl - 52)) by lia.
  rewrite (shl_neg_exp b), (shl_nonneg_exp a) by lia.
  set (m := Py.round_half_even (a * 2 ^ (- (fl - 52))) b).
  rewrite (shl_neg_exp m), (shl_nonneg_exp (2 ^ 1024)) by lia.
  assert (EP : 2 ^ (- (fl - 52)) = 2 ^ (- fl) * 2 ^ 52).
  { rewrite <- Z.pow_add_r by lia. f_equal. lia. }
  set (T := 2 ^ (- fl)) in *.
  assert (HT1 : 1 <= T) by (apply pow2_ge_1; lia).
  assert (Hm : m = Py.round_half_even (a * T * 2 ^ 52) b).
  { subst m. rewrite EP. f_equal. lia. }
  pose proof (round_half_even_bounds (a * T * 2 ^ 52) b ltac:(lia)) as [Hq1 Hq2].
  rewrite <- Hm in Hq1, Hq2.
  assert (Hq : 2 ^ 52 <= a * T * 2 ^ 52 / b).
  { apply Z.div_le_lower_bound; [lia|]. nia. }
  assert (Hqu : a * T * 2 ^ 52 / b <= 2 ^ 53).
  { apply Z.div_le_upper_bound; [lia|]. change (2 ^ 53) with (2 * 2 ^ 52). nia. }
  destruct (Z.leb_spec (2 ^ 1024 * 2 ^ (- (fl - 52))) m) as [Hov|_].
  { exfalso. rewrite EP in Hov.
    assert (2 ^ 53 + 1 < 2 ^ 1024 * (1 * 2 ^ 52)) by (vm_compute; reflexivity).
    assert (2 ^ 1024 * (1 * 2 ^ 52) <= 2 ^ 1024 * (T * 2 ^ 52)).
    { apply Z.mul_le_mono_nonneg_l; [vm_compute; discriminate|].
      apply Z.mul_le_mono_nonneg_r; [vm_compute; discriminate|lia]. }
    lia. }
  eexists. split; [reflexivity|].
  unfold Py.float_ge, Py.scaled, Py.quarter. cbn [Py.neg Py.sig Py.exp].
  replace (xorb (a <? 0) (b <? 0)) with false
    by (destruct (Z.ltb_spec a 0), (Z.ltb_spec b 0); simpl; lia).
  destruct (Z.le_gt_cases (-2) fl) as [Hs|Hs].
  - (* at most 54 fractional bits: the quotient is at least 1/4 *)
    rewrite (Z.min_r (fl - 52) (-54)) by lia.
    replace (-54 - -54) with 0 by lia. rewrite Z.pow_0_r.
    assert (HT4 : T <= 4).
    { subst T. change 4 with (2 ^ 2). apply Z.pow_le_mono_r; lia. }
    assert (1 <= 2 ^ (fl - 52 - -54)) by (apply pow2_ge_1; lia).
    destruct (Z.leb_spec b (4 * a)); [|nia].
    apply Z.leb_le. nia.
  - rewrite (Z.min_l (fl - 52) (-54)) by lia.
    replace (fl - 52 - (fl - 52)) with 0 by lia. rewrite Z.pow_0_r, Z.mul_1_r.
    assert (EQ : T = 4 * 2 ^ (-54 - (fl - 52))).
    { subst T. change 4 with (2 ^ 2). rewrite <- Z.pow_add_r by lia. f_equal. lia. }
    set (Q := 2 ^ (-54 - (fl - 52))) in *.
    assert (HQ : 2 <= Q).
    { subst Q. change 2 with (2 ^ 1) at 1. apply Z.pow_le_mono_r; lia. }
    destruct (Z.leb_spec b (4 * a)) as [Hc|Hc].
    + apply Z.leb_le.
      assert (2 ^ 52 * Q <= a * T * 2 ^ 52 / b); [|lia].
      apply Z.div_le_lower_bound; [lia|]. nia.
    + apply Z.leb_gt.
      (* the exact quotient is below Q by at least Q/b > 1/2 *)
      set (X := a * T * 2 ^ 52) in *.
      assert (HX : X <= (b - 1) * (Q * 2 ^ 52)) by (subst X; nia).
      pose proof (Z.div_mod X b ltac:(lia)) as HD.
      pose proof (Z.mod_pos_bound X b ltac:(lia)) as HR.
      assert (Hlt : X / b < 2 ^ 52 * Q).
      { apply Z.div_lt_upper_bound; [lia|]. nia. }
      destruct (Z.eq_dec (X / b) (2 ^ 52 * Q - 1)) as [Eq|Ne]; [|lia].
      assert (Hr : 2 * (X mod b) < b).
      { assert (X mod b <= b - Q * 2 ^ 52) by nia. nia. }
      subst m. rewrite Hm. unfold Py.round_half_even.
      destruct (Z.ltb_spec b (2 * (X mod b))); [lia|].
      destruct (Z.eqb_spec b (2 * (X mod b))); [lia|].
      cbn [orb andb]. exact Hlt.
Qed.

(** ** The ratio test *)

Lemma ratio_ge_quarter_iff b t : 0 < t -> ratio_ge_quarter b t <-> t <= 4 * b.
Proof.
  intros Ht. unfold ratio_ge_quarter, Qle, Qdiv, Qmult, Qinv, inject_Z.
  destruct t as [|p|p]; try lia. cbn [Qnum Qden]. lia.
Qed.

Lemma contains_single c s : Py.contains [c] s = true <-> In c s.
Proof.
  induction s as [|b s IH]; simpl.
  - split; [discriminate|tauto].
  - rewrite andb_true_r, orb_true_iff, IH, N.eqb_eq. intuition congruence.
Qed.

Lemma counted_space c : Py.isspace c = true -> counted c = false.
Proof. intros H. rewrite counted_spec, H. reflexivity. Qed.

Lemma counted_punctuation c : In c punctuation -> counted c = false.
Proof.
  intros H. apply contains_single in H. rewrite counted_spec, H.
  apply andb_false_r.
Qed.

Lemma count_chars_blank text :
  forallb Py.isspace text = true -> count_chars text = (0, 0).
Proof.
  intros H. apply count_chars_uncounted.
  rewrite forallb_forall in *. intros c Hc.
  now rewrite counted_space by auto.
Qed.

Section RatioTest.
Context {ucd : UnicodeData}.

(** With no keyword and at least one counted character the answer is the
    comparison of the rounded quotient with [0.25]. *)
Lemma is_bangla_text_counts text b t :
  count_chars text = (b, t) -> has_system_keyword text = false -> t <> 0 ->
  is_bangla_text text =
  (ratio <- Py.truediv b t ;; ret (Py.float_ge ratio Py.quarter)).
Proof.
  intros Hc Hk Ht. unfold is_bangla_text. rewrite Hk, Hc.
  destruct (Z.eqb_spec t 0); [contradiction|].
  rewrite len_strip_zero.
  destruct text as [|c text]; [inversion Hc; congruence|].
  destruct (forallb Py.isspace (c :: text)) eqn:Hs; [|reflexivity].
  rewrite (count_chars_blank _ Hs) in Hc. congruence.
Qed.

Lemma is_bangla_text_exact text b t :
  count_chars text = (b, t) -> has_system_keyword text = false ->
  0 < t < 2 ^ 54 ->
  is_bangla_text text = inr (t <=? 4 * b).
Proof.
  intros Hc Hk Ht.
  rewrite (is_bangla_text_counts text b t Hc Hk) by lia.
  pose proof (count_chars_bounds text) as [Hb _]. rewrite Hc in Hb. cbn [fst snd] in Hb.
  destruct (truediv_ge_quarter b t Hb Ht) as [f [Hf Hge]].
  rewrite Hf. cbn. now rewrite Hge.
Qed.

End RatioTest.

(** ** Two blocks of one character each *)

Lemma count_chars_app s1 s2 :
  count_chars (s1 ++ s2) =
  (fst (count_chars s1) + fst (count_chars s2),
   snd (count_chars s1) + snd (count_chars s2)).
Proof.
  unfold count_chars. rewrite fold_left_app.
  destruct (fold_left count_step s1 (0, 0)) as [b1 t1]. cbn [fst snd].
  replace (b1, t1) with (b1 + 0, t1 + 0) by (f_equal; lia).
  apply fold_count_shift.
Qed.

Lemma count_chars_repeat c n :
  count_chars (repeat c n) =
  (Z.of_nat n * fst (count_step (0, 0) c), Z.of_nat n * snd (count_step (0, 0) c)).
Proof.
  induction n as [|n IH].
  - reflexivity.
  - cbn [repeat]. rewrite count_chars_cons, IH. cbn [fst snd]. f_equal; lia.
Qed.

Lemma contains_head c p hay : Py.contains (c :: p) hay = true -> In c hay.
Proof.
  induction hay as [|b hay IH]; simpl; [discriminate|].
  intros H. apply orb_prop in H. destruct H as [H|H].
  - apply andb_prop in H. destruct H as [H _]. apply N.eqb_eq in H. auto.
  - auto.
Qed.

Lemma in_two_blocks (a b c : char) n m :
  In c (repeat a n ++ repeat b m) -> c = a \/ c = b.
Proof.
  intros H. apply in_app_or in H.
  destruct H as [H|H]; apply repeat_spec in H; auto.
Qed.

(** A text made of a run of U+0995 and a run of [x] holds no keyword. *)
Lemma two_blocks_no_keyword n m :
  @has_system_keyword ascii_bengali (repeat 0x995%N n ++ repeat 0x78%N m) = false.
Proof.
  unfold has_system_keyword. cbn [lower ascii_bengali].
  rewrite map_app, !map_repeat.
  change (ascii_tolower 0x995%N) with 0x995%N. change (ascii_tolower 0x78%N) with 0x78%N.
  unfold system_keywords. cbn [existsb].
  match goal with |- context [Py.contains _ ?h] => set (hay := h) end.
  assert (H : forall c p, c <> 0x995%N -> c <> 0x78%N -> Py.contains (c :: p) hay = false).
  { intros c p H1 H2. destruct (Py.contains (c :: p) hay) eqn:E; [|reflexivity].
    apply contains_head, in_two_blocks in E. tauto. }
  repeat match goal with
         | |- context [Py.contains ?kw hay] =>
             let k := eval vm_compute in kw in
             change kw with k;
             rewrite H by discriminate
         end.
  reflexivity.
Qed.

Lemma two_blocks_classified n m :
  (0 < n)%nat ->
  @is_bangla_text ascii_bengali (repeat 0x995%N n ++ repeat 0x78%N m) =
  (ratio <- Py.truediv (Z.of_nat n) (Z.of_nat n + Z.of_nat m) ;;
   ret (Py.float_ge ratio Py.quarter)).
Proof.
  intros Hn. apply is_bangla_text_counts.
  - rewrite count_chars_app, !count_chars_repeat.
    change (count_step (0, 0) 0x995%N) with (1, 1).
    change (count_step (0, 0) 0x78%N) with (0, 1).
    cbn [fst snd]. f_equal; lia.
  - apply two_blocks_no_keyword.
  - lia.
Qed.

Lemma uncounted_check text :
  forallb (fun c => Py.isspace c || Py.contains [c] punctuation) text = true ->
  Forall (fun c => Py.isspace c = true \/ In c punctuation) text.
Proof.
  intros H. apply Forall_forall. intros c Hc.
  rewrite forallb_forall in H. specialize (H c Hc).
  apply orb_prop in H. rewrite contains_single in H. exact H.
Qed.

(** ** The line loop *)

Section ParserFacts.
Context {ucd : UnicodeData}.

Lemma parse_lines_finish lines :
  parse_lines lines = finish (fold_left parse_step lines ([], None)).
Proof.
  unfold parse_lines, finish.
  destruct (fold_left parse_step lines ([], None)); reflexivity.
Qed.

(** The messages already appended are never touched again. *)
Lemma parse_step_prefix ms cur line :
  parse_step (ms, cur) line =
  (ms ++ fst (parse_step ([], cur) line), snd (parse_step ([], cur) line)).
Proof.
  unfold parse_step. destruct (header line) as [h|].
  - destruct cur; cbn [flush fst snd app]; [reflexivity|now rewrite app_nil_r].
  - destruct cur as [m|]; [destruct (truthy (Py.strip line))|];
      cbn [fst snd]; now rewrite app_nil_r.
Qed.

Lemma run_prefix lines : forall ms cur,
  fold_left parse_step lines (ms, cur) =
  (ms ++ fst (fold_left parse_step lines ([], cur)),
   snd (fold_left parse_step lines ([], cur))).
Proof.
  induction lines as [|line lines IH]; intros ms cur; cbn [fold_left fst snd].
  - now rewrite app_nil_r.
  - rewrite parse_step_prefix.
    destruct (parse_step ([], cur) line) as [d cur1]. cbn [fst snd].
    rewrite (IH (ms ++ d)), (IH d). cbn [fst snd]. now rewrite app_assoc.
Qed.

Lemma finish_run_prefix lines ms cur :
  finish (fold_left parse_step lines (ms, cur)) =
  ms ++ finish (fold_left parse_step lines ([], cur)).
Proof.
  rewrite run_prefix. unfold finish. cbn [fst snd].
  destruct (snd (fold_left parse_step lines ([], cur))); cbn [flush].
  - now rewrite app_assoc.
  - reflexivity.
Qed.

(** Lines that are not headers, met while no message is under
    construction, leave the state alone. *)
Lemma run_no_header_idle lines :
  Forall (fun line => header line = None) lines ->
  fold_left parse_step lines ([], None) = ([], None).
Proof.
  induction 1 as [|line lines Hl _ IH]; [reflexivity|].
  cbn [fold_left]. unfold parse_step at 2. now rewrite Hl.
Qed.

(** Lines that are not headers, met while [m] is under construction, are
    appended to its text, blank ones apart. *)
Lemma run_no_header_open lines : forall ms m,
  Forall (fun line => header line = None) lines ->
  fold_left parse_step lines (ms, Some m) =
  (ms, Some (with_text m (message m ++ continuation lines))).
Proof.
  induction lines as [|line lines IH]; intros ms m H.
  - cbn. unfold with_text. rewrite app_nil_r. now destruct m.
  - inversion H as [|? ? Hl Hr]; subst. cbn [fold_left].
    unfold parse_step at 2. rewrite Hl.
    unfold continuation. cbn [filter]. unfold nonblank at 1.
    destruct (truthy (Py.strip line)).
    + rewrite IH by assumption. unfold with_text, append_line, continuation.
      cbn [date time sender message map concat].
      now rewrite <- !app_assoc.
    + rewrite IH by assumption. reflexivity.
Qed.

(** A header line closes the message under construction and opens its
    own, whatever came before. *)
Lemma run_header_restart line lines ms cur h :
  header line = Some h ->
  finish (fold_left parse_step (line :: lines) (ms, cur)) =
  flush ms cur ++ finish (fold_left parse_step (line :: lines) ([], None)).
Proof.
  intros Hh. cbn [fold_left]. unfold parse_step at 2 4. rewrite Hh.
  cbn [flush]. apply finish_run_prefix.
Qed.

Lemma finish_starts_afresh rest ms cur :
  starts_afresh rest ->
  finish (fold_left parse_step rest (ms, cur)) = flush ms cur ++ parse_lines rest.
Proof.
  intros H. rewrite parse_lines_finish. destruct rest as [|line rest].
  - cbn. now rewrite app_nil_r.
  - unfold starts_afresh, is_header in H.
    destruct (header line) as [h|] eqn:Hh; [|discriminate].
    now apply run_header_restart with (h := h).
Qed.

Lemma parse_lines_message pre line conts rest h :
  header line = Some h ->
  Forall (fun l => header l = None) conts ->
  starts_afresh rest ->
  parse_lines (pre ++ line :: conts ++ rest) =
  parse_lines pre
  ++ [with_text h (message h ++ continuation conts)] ++ parse_lines rest.
Proof.
  intros Hh Hc Hr.
  rewrite (parse_lines_finish (pre ++ _)), fold_left_app.
  destruct (fold_left parse_step pre ([], None)) as [ms cur] eqn:E.
  rewrite (parse_lines_finish pre), E. unfold finish at 2. cbn [fst snd].
  cbn [fold_left]. unfold parse_step at 2. rewrite Hh.
  rewrite fold_left_app, run_no_header_open by assumption.
  rewrite finish_starts_afresh by assumption.
  cbn [flush]. now rewrite <- app_assoc.
Qed.

Lemma parse_lines_skip pre rest :
  Forall (fun l => header l = None) pre ->
  parse_lines (pre ++ rest) = parse_lines rest.
Proof.
  intros H. rewrite !parse_lines_finish, fold_left_app.
  now rewrite run_no_header_idle.
Qed.

End ParserFacts.

(** ** One message per header line *)

Section HeaderCount.
Context {ucd : UnicodeData}.

Lemma extends_refl h : extends h h.
Proof. repeat split. exists []. now rewrite app_nil_r. Qed.

Lemma extends_append h m line : extends h m -> extends h (append_line m line).
Proof.
  intros (Hd & Ht & Hs & tail & Hm). repeat split; try assumption.
  exists (tail ++ [10%N] ++ Py.strip line). cbn [append_line message].
  rewrite Hm. now rewrite <- app_assoc.
Qed.

Lemma Forall2_snoc {A B} (R : A -> B -> Prop) l1 l2 x y :
  Forall2 R l1 l2 -> R x y -> Forall2 R (l1 ++ [x]) (l2 ++ [y]).
Proof. intros H1 H2. apply Forall2_app; [assumption|]. constructor; [assumption|constructor]. Qed.

Lemma Forall2_snoc_inv {A B} (R : A -> B -> Prop) l1 l2 y :
  Forall2 R l1 (l2 ++ [y]) ->
  exists l1' x, l1 = l1' ++ [x] /\ Forall2 R l1' l2 /\ R x y.
Proof.
  intros H. apply Forall2_app_inv_r in H.
  destruct H as (l1' & l1'' & H1 & H2 & ->).
  inversion H2 as [|x ? ? ? Hxy Hnil]; subst. inversion Hnil; subst.
  exists l1', x. auto.
Qed.

(** Loop invariant: the messages appended so far and the one under
    construction are, in order, the headers seen so far, each with lines
    appended. *)
Lemma run_headers lines : forall hs ms cur,
  Forall2 extends hs (flush ms cur) ->
  Forall2 extends (hs ++ header_lines lines)
          (finish (fold_left parse_step lines (ms, cur))).
Proof.
  induction lines as [|line lines IH]; intros hs ms cur H.
  - cbn. now rewrite app_nil_r.
  - cbn [fold_left]. unfold header_lines. cbn [flat_map].
    fold (header_lines lines). unfold parse_step at 2.
    destruct (header line) as [h|] eqn:Hh.
    + rewrite app_assoc. apply IH. cbn [flush].
      apply Forall2_snoc; [assumption|apply extends_refl].
    + cbn [app]. destruct cur as [m|]; [|now apply IH].
      destruct (truthy (Py.strip line)); [|now apply IH].
      apply IH. cbn [flush] in *.
      apply Forall2_snoc_inv in H. destruct H as (hs' & h & -> & H1 & H2).
      apply Forall2_snoc; [assumption|now apply extends_append].
Qed.


Lemma parse_lines_headers lines :
  Forall2 extends (header_lines lines) (parse_lines lines).
Proof.
  rewrite parse_lines_finish.
  apply (run_headers lines [] [] None). constructor.
Qed.

End HeaderCount.

(** ** The matcher only finds matches *)

Section MatcherFacts.
Import Re.
Context {A : Type}.

Lemma rep_sound p s : forall lo hi pos (k : nat -> str -> option A) res,
  rep p lo hi pos s k = Some res ->
  exists w s', s = w ++ s' /\ forallb p w = true
               /\ (lo <= length w)%nat
               /\ match hi with Some h => (length w <= h)%nat | None => True end
               /\ k (pos + length w)%nat s' = Some res.
Proof.
  induction s as [|c s IH]; intros lo hi pos k res H.
  - cbn in H. destruct lo; [|discriminate].
    exists [], []. cbn. rewrite Nat.add_0_r.
    repeat split; try assumption; try lia. destruct hi; lia.
  - cbn [rep] in H.
    assert (Hstop : match lo with O => k pos (c :: s) | S _ => None end = Some res ->
                    exists w s', c :: s = w ++ s' /\ forallb p w = true
                      /\ (lo <= length w)%nat
                      /\ match hi with Some h => (length w <= h)%nat | None => True end
                      /\ k (pos + length w)%nat s' = Some res).
    { intros Hs. destruct lo; [|discriminate].
      exists [], (c :: s). cbn. rewrite Nat.add_0_r.
      repeat split; try assumption; try lia. destruct hi; lia. }
    destruct (p c && negb match hi with Some O => true | _ => false end) eqn:Hc;
      [|auto].
    destruct (rep p (Nat.pred lo) (option_map Nat.pred hi) (S pos) s k) as [res'|] eqn:Hr;
      [|auto].
    inversion H; subst res'. clear H Hstop.
    apply IH in Hr. destruct Hr as (w & s' & -> & Hw & Hlo & Hhi & Hk).
    apply andb_prop in Hc. destruct Hc as [Hpc Hh].
    exists (c :: w), s'. cbn [app forallb length]. rewrite Hpc, Hw.
    rewrite Nat.add_succ_r. repeat split; try assumption; try lia.
    destruct hi as [[|h]|]; cbn in *; try discriminate; lia.
Qed.

Lemma rmatch_sound r : forall pos s caps (k : nat -> str -> captures -> option A) res,
  rmatch r pos s caps k = Some res ->
  exists pos' s' caps', span r pos s caps pos' s' caps' /\ k pos' s' caps' = Some res.
Proof.
  induction r as [| | |p|p lo hi|r1 IH1 r2 IH2|r1 IH1 r2 IH2|i r IH];
    intros pos s caps k res H; cbn [rmatch] in H.
  - exists pos, s, caps. cbn. auto.
  - destruct (Nat.eqb_spec pos 0); [|discriminate].
    exists pos, s, caps. cbn. auto.
  - destruct s as [|c [|c' s]]; try discriminate.
    + exists pos, [], caps. cbn. auto.
    + destruct (N.eqb_spec c 10); [subst c|discriminate].
      exists pos, [10%N], caps. cbn. auto.
  - destruct s as [|c s]; [discriminate|].
    destruct (p c) eqn:Hp; [|discriminate].
    exists (S pos), s, caps. cbn [span]. split; [exists c; auto|assumption].
  - apply rep_sound in H. destruct H as (w & s' & -> & Hw & Hlo & Hhi & Hk).
    exists (pos + length w)%nat, s', caps. cbn [span]. split; [|assumption].
    exists w. repeat split; assumption.
  - apply IH1 in H. destruct H as (pos1 & s1 & caps1 & H1 & H).
    apply IH2 in H. destruct H as (pos' & s' & caps' & H2 & H).
    exists pos', s', caps'. cbn [span]. split; [|assumption].
    exists pos1, s1, caps1. split; assumption.
  - destruct (rmatch r1 pos s caps k) as [res'|] eqn:E.
    + inversion H; subst res'. apply IH1 in E.
      destruct E as (pos' & s' & caps' & H1 & Hk).
      exists pos', s', caps'. cbn [span]. auto.
    + apply IH2 in H. destruct H as (pos' & s' & caps' & H2 & Hk).
      exists pos', s', caps'. cbn [span]. auto.
  - apply IH in H. destruct H as (pos' & s' & caps' & H1 & Hk).
    eexists pos', s', _. cbn [span]. split; [|eassumption].
    exists caps'. split; [assumption|reflexivity].
Qed.

End MatcherFacts.

Lemma span_consumed r : forall pos s caps pos' s' caps',
  Re.span r pos s caps pos' s' caps' ->
  exists w, s = w ++ s' /\ pos' = (pos + length w)%nat.
Proof.
  induction r as [| | |p|p lo hi|r1 IH1 r2 IH2|r1 IH1 r2 IH2|i r IH];
    intros pos s caps pos' s' caps' H; cbn [Re.span] in H.
  - destruct H as (-> & -> & _). exists []. cbn. auto.
  - destruct H as (_ & -> & -> & _). exists []. cbn. auto.
  - destruct H as (_ & -> & -> & _). exists []. cbn. auto.
  - destruct H as (c & -> & _ & -> & _). exists [c]. cbn. split; [reflexivity|lia].
  - destruct H as (w & -> & _ & _ & _ & -> & _). exists w. auto.
  - destruct H as (pos1 & s1 & caps1 & H1 & H2).
    apply IH1 in H1. apply IH2 in H2.
    destruct H1 as (w1 & -> & ->). destruct H2 as (w2 & -> & ->).
    exists (w1 ++ w2). rewrite <- app_assoc, length_app. split; [reflexivity|lia].
  - destruct H as [H|H]; eauto.
  - destruct H as (caps1 & H & _). eauto.
Qed.

(** What a group captures is what the pattern inside it went over. *)
Lemma span_group i r pos s caps pos' s' caps' :
  Re.span (Re.Grp i r) pos s caps pos' s' caps' ->
  exists w caps1, s = w ++ s' /\ pos' = (pos + length w)%nat
                  /\ caps' = (i, w) :: caps1
                  /\ Re.span r pos s caps pos' s' caps1.
Proof.
  cbn [Re.span]. intros (caps1 & H & ->).
  destruct (span_consumed _ _ _ _ _ _ _ H) as (w & -> & ->).
  exists w, caps1. repeat split; try assumption.
  replace (pos + length w - pos)%nat with (length w) by lia.
  now rewrite firstn_app, Nat.sub_diag, firstn_all, app_nil_r.
Qed.

Lemma span_groupless r : forall pos s caps pos' s' caps',
  Re.groupless r = true -> Re.span r pos s caps pos' s' caps' -> caps' = caps.
Proof.
  induction r as [| | |p|p lo hi|r1 IH1 r2 IH2|r1 IH1 r2 IH2|i r IH];
    intros pos s caps pos' s' caps' G H; cbn [Re.span Re.groupless] in *;
    try discriminate.
  - tauto.
  - tauto.
  - tauto.
  - destruct H as (c & _ & _ & _ & H). exact H.
  - destruct H as (w & _ & _ & _ & _ & _ & H). exact H.
  - apply andb_prop in G. destruct G as [G1 G2].
    destruct H as (pos1 & s1 & caps1 & H1 & H2).
    apply IH1 in H1; [|assumption]. apply IH2 in H2; [|assumption]. congruence.
  - apply andb_prop in G. destruct G as [G1 G2]. destruct H as [H|H]; eauto.
Qed.

Lemma span_cat r1 r2 pos s caps pos' s' caps' :
  Re.span (Re.Cat r1 r2) pos s caps pos' s' caps' ->
  exists pos1 s1 caps1,
    Re.span r1 pos s caps pos1 s1 caps1 /\ Re.span r2 pos1 s1 caps1 pos' s' caps'.
Proof. exact (fun H => H). Qed.

(** A group with no group inside. *)
Lemma span_flat_group i r pos s caps pos' s' caps' :
  Re.groupless r = true ->
  Re.span (Re.Grp i r) pos s caps pos' s' caps' ->
  exists w, s = w ++ s' /\ caps' = (i, w) :: caps
            /\ Re.span r pos s caps pos' s' caps.
Proof.
  intros G H. apply span_group in H.
  destruct H as (w & caps1 & -> & _ & -> & H).
  pose proof (span_groupless _ _ _ _ _ _ _ G H) as ->.
  exists w. auto.
Qed.

(** A part of the pattern with no group: it goes over some text and
    leaves the captures alone. *)
Lemma span_flat r pos s caps pos' s' caps' :
  Re.groupless r = true ->
  Re.span r pos s caps pos' s' caps' ->
  exists w, s = w ++ s' /\ caps' = caps.
Proof.
  intros G H. pose proof (span_groupless _ _ _ _ _ _ _ G H) as ->.
  apply span_consumed in H. destruct H as (w & -> & _). exists w. auto.
Qed.

Lemma span_chr p pos s caps pos' s' caps' :
  Re.span (Re.Chr p) pos s caps pos' s' caps' ->
  exists c, s = [c] ++ s' /\ p c = true /\ caps' = caps.
Proof. cbn. intros (c & -> & H & _ & ->). exists c. auto. Qed.

Lemma span_rep p lo hi pos s caps pos' s' caps' :
  Re.span (Re.Rep p lo hi) pos s caps pos' s' caps' ->
  exists w, s = w ++ s' /\ forallb p w = true /\ caps' = caps.
Proof. cbn. intros (w & -> & H & _ & _ & _ & ->). exists w. auto. Qed.

Lemma lstrip_app s t :
  Py.lstrip (s ++ t) = if forallb Py.isspace s then Py.lstrip t else Py.lstrip s ++ t.
Proof.
  induction s as [|c s IH]; cbn; [reflexivity|].
  destruct (Py.isspace c); cbn; [exact IH|reflexivity].
Qed.

Lemma rstrip_app_space s w :
  forallb Py.isspace w = true -> Py.rstrip (s ++ w) = Py.rstrip s.
Proof.
  intros H. unfold Py.rstrip. rewrite rev_app_distr.
  rewrite forallb_isspace_lstrip; [reflexivity|]. now rewrite forallb_rev.
Qed.

Lemma strip_app_space_r s w :
  forallb Py.isspace w = true -> Py.strip (s ++ w) = Py.strip s.
Proof.
  intros H. unfold Py.strip. rewrite lstrip_app.
  destruct (forallb Py.isspace s) eqn:Hs.
  - apply lstrip_nil_iff in H. apply lstrip_nil_iff in Hs. now rewrite H, Hs.
  - now apply rstrip_app_space.
Qed.

Lemma forallb_not_in (p : char -> bool) c w :
  p c = false -> forallb p w = true -> ~ In c w.
Proof.
  intros Hc Hw Hin. rewrite forallb_forall in Hw. specialize (Hw c Hin). congruence.
Qed.

Section HeaderShape.
Context {ucd : UnicodeData}.
Import Re.

(** A line that matches the pattern reads date, comma, whitespace, time,
    whitespace, dash, a run without colon, colon, and the rest; the
    message it starts has the run and the rest stripped on both sides as
    sender and text. *)
Lemma header_shape line h :
  header line = Some h ->
  exists ws1 ws2 raw rest,
    line = date h ++ u "," ++ ws1 ++ time h ++ ws2 ++ u "-" ++ raw ++ u ":" ++ rest
    /\ forallb Py.isspace ws1 = true /\ forallb Py.isspace ws2 = true
    /\ ~ In 58%N raw
    /\ sender h = Py.strip raw
    /\ message h = Py.strip rest.
Proof.
  unfold header, re_match. intros H.
  destruct (rmatch pattern 0 line [] (fun _ _ caps => Some caps)) as [caps|] eqn:E;
    [|discriminate].
  inversion H; subst h; clear H. cbn [date time sender message].
  apply rmatch_sound in E. destruct E as (pos' & s' & caps' & H & E).
  inversion E; subst caps'; clear E.
  unfold pattern in H. cbn [seq] in H.
  apply span_cat in H. destruct H as (p0 & s0 & c0 & H0 & H).
  cbn in H0. destruct H0 as (_ & -> & -> & ->).
  apply span_cat in H. destruct H as (p1 & s1 & c1 & H1 & H).
  apply span_flat_group in H1; [|reflexivity]. destruct H1 as (w1 & -> & -> & _).
  apply span_cat in H. destruct H as (p2 & s2 & c2 & H2 & H).
  apply span_chr in H2. destruct H2 as (x2 & -> & Hx2 & ->).
  apply N.eqb_eq in Hx2. subst x2.
  apply span_cat in H. destruct H as (p3 & s3 & c3 & H3 & H).
  apply span_rep in H3. destruct H3 as (ws1 & -> & Hws1 & ->).
  apply span_cat in H. destruct H as (p4 & s4 & c4 & H4 & H).
  apply span_flat_group in H4; [|reflexivity]. destruct H4 as (w2 & -> & -> & _).
  apply span_cat in H. destruct H as (p5 & s5 & c5 & H5 & H).
  apply span_rep in H5. destruct H5 as (ws2 & -> & Hws2 & ->).
  apply span_cat in H. destruct H as (p6 & s6 & c6 & H6 & H).
  apply span_chr in H6. destruct H6 as (x6 & -> & Hx6 & ->).
  apply N.eqb_eq in Hx6. subst x6.
  apply span_cat in H. destruct H as (p7 & s7 & c7 & H7 & H).
  apply span_rep in H7. destruct H7 as (ws3 & -> & Hws3 & ->).
  apply span_cat in H. destruct H as (p8 & s8 & c8 & H8 & H).
  apply span_flat_group in H8; [|reflexivity]. destruct H8 as (w3 & -> & -> & H8).
  apply span_rep in H8. destruct H8 as (w3' & Ew3 & Hw3 & _).
  apply app_inv_tail in Ew3. subst w3'.
  apply span_cat in H. destruct H as (p9 & s9 & c9 & H9 & H).
  apply span_chr in H9. destruct H9 as (x9 & -> & Hx9 & ->).
  apply N.eqb_eq in Hx9. subst x9.
  apply span_cat in H. destruct H as (p10 & s10 & c10 & H10 & H).
  apply span_rep in H10. destruct H10 as (ws4 & -> & Hws4 & ->).
  apply span_cat in H. destruct H as (p11 & s11 & c11 & H11 & H).
  apply span_flat_group in H11; [|reflexivity]. destruct H11 as (w4 & -> & -> & _).
  cbn [span] in H. destruct H as (Hend & _ & -> & ->).
  cbn [group Nat.eqb].
  exists ws1, ws2, (ws3 ++ w3), (ws4 ++ w4 ++ s11).
  assert (Hs11 : forallb Py.isspace s11 = true) by (destruct Hend; subst; reflexivity).
  split; [|split; [|split; [|split; [|split]]]]; try assumption.
  - change (u ",") with [N_of_ascii ","]. change (u "-") with [N_of_ascii "-"].
    change (u ":") with [N_of_ascii ":"]. now rewrite <- !app_assoc.
  - intros Hin. apply in_app_or in Hin. destruct Hin as [Hin|Hin].
    + now apply (forallb_not_in Py.isspace 58%N ws3).
    + now apply (forallb_not_in (other_than 58%N) 58%N w3).
  - now rewrite strip_app_space_l.
  - rewrite strip_app_space_l by assumption. now rewrite strip_app_space_r.
Qed.

End HeaderShape.

Lemma split_one_line s : ~ In 10%N s -> Py.split 10%N s = [s].
Proof.
  induction s as [|c s IH]; intros H; cbn [Py.split]; [reflexivity|].
  destruct (N.eqb_spec c 10) as [->|_]; [exfalso; apply H; now left|].
  rewrite IH; [reflexivity|]. intros Hin. apply H. now right.
Qed.

(** ** Databases that agree on the characters of a text *)

Section Agreement.
Import Re.

Lemma forallb_tail {A} (p : A -> bool) x l :
  forallb p (x :: l) = true -> p x = true /\ forallb p l = true.
Proof. cbn. intros H. now apply andb_prop in H. Qed.

Lemma rep_agree {A} P p q s : forall lo hi pos (k1 k2 : nat -> str -> option A),
  (forall c, P c = true -> p c = q c) ->
  forallb P s = true ->
  (forall pos' s', forallb P s' = true -> k1 pos' s' = k2 pos' s') ->
  rep p lo hi pos s k1 = rep q lo hi pos s k2.
Proof.
  induction s as [|c s IH]; intros lo hi pos k1 k2 Hpq Hs Hk.
  - cbn. destruct lo; [now apply Hk|reflexivity].
  - apply forallb_tail in Hs as Hs'. destruct Hs' as [Hc Hs'].
    cbn [rep]. rewrite (Hpq c Hc).
    rewrite (IH (Nat.pred lo) (option_map Nat.pred hi) (S pos) k1 k2 Hpq Hs' Hk).
    rewrite (Hk pos (c :: s) Hs). reflexivity.
Qed.

Lemma rmatch_agree {A} P r1 : forall r2 pos s caps
  (k1 k2 : nat -> str -> captures -> option A),
  agree P r1 r2 ->
  forallb P s = true ->
  (forall pos' s' caps', forallb P s' = true -> k1 pos' s' caps' = k2 pos' s' caps') ->
  rmatch r1 pos s caps k1 = rmatch r2 pos s caps k2.
Proof.
  induction r1 as [| | |p|p lo hi|a IH1 b IH2|a IH1 b IH2|i r IH];
    intros r2 pos s caps k1 k2 Ha Hs Hk; destruct r2; cbn [agree] in Ha;
    try contradiction; cbn [rmatch].
  - now apply Hk.
  - destruct (Nat.eqb pos 0); [now apply Hk|reflexivity].
  - destruct s as [|c [|c' s]]; [now apply Hk| |reflexivity].
    destruct (c =? 10)%N; [now apply Hk|reflexivity].
  - destruct s as [|c s]; [reflexivity|].
    apply forallb_tail in Hs. destruct Hs as [Hc Hs].
    rewrite (Ha c Hc). destruct (p0 c); [now apply Hk|reflexivity].
  - destruct Ha as (<- & <- & Hpq). apply (rep_agree P); auto.
  - destruct Ha as [Ha Hb]. apply IH1; auto.
  - destruct Ha as [Ha Hb].
    rewrite (IH1 r2_1 pos s caps k1 k2 Ha Hs Hk).
    rewrite (IH2 r2_2 pos s caps k1 k2 Hb Hs Hk). reflexivity.
  - destruct Ha as [<- Ha]. apply IH; auto.
Qed.

Context (U V : UnicodeData) (P : char -> bool).
Hypothesis digits_agree : forall c, P c = true -> @isdecimal U c = @isdecimal V c.

Lemma pattern_agree : agree P (@pattern U) (@pattern V).
Proof. cbn. repeat split; auto. Qed.

Lemma header_agree line :
  forallb P line = true -> @header U line = @header V line.
Proof.
  intros H. unfold header, re_match.
  rewrite (rmatch_agree P (@pattern U) (@pattern V) 0 line []
             (fun _ _ caps => Some caps) (fun _ _ caps => Some caps)
             pattern_agree H); reflexivity.
Qed.

Lemma run_agree lines : forall st,
  forallb (forallb P) lines = true ->
  fold_left (@parse_step U) lines st = fold_left (@parse_step V) lines st.
Proof.
  induction lines as [|line lines IH]; intros st H; [reflexivity|].
  apply forallb_tail in H. destruct H as [Hl Hr]. cbn [fold_left].
  rewrite <- IH by assumption. f_equal.
  unfold parse_step. destruct st as [ms cur]. now rewrite header_agree.
Qed.

Lemma split_forallb sep s :
  forallb P s = true -> forallb (forallb P) (Py.split sep s) = true.
Proof.
  induction s as [|c s IH]; intros H; [reflexivity|].
  apply forallb_tail in H. destruct H as [Hc Hs]. specialize (IH Hs).
  cbn [Py.split]. destruct (c =? sep)%N; [exact IH|].
  destruct (Py.split sep s) as [|piece pieces].
  - cbn. now rewrite Hc.
  - apply forallb_tail in IH. destruct IH as [Hp Hps].
    cbn [forallb]. now rewrite Hc, Hp, Hps.
Qed.

Lemma parse_whatsapp_chat_agree chat_text :
  forallb P chat_text = true ->
  @parse_whatsapp_chat U chat_text = @parse_whatsapp_chat V chat_text.
Proof.
  intros H. unfold parse_whatsapp_chat, parse_lines.
  now rewrite run_agree by now apply split_forallb.
Qed.

Hypothesis lower_agree : forall s, forallb P s = true -> @lower U s = @lower V s.

Lemma is_bangla_text_agree text :
  forallb (forallb P) system_keywords = true ->
  forallb P text = true ->
  @is_bangla_text U text = @is_bangla_text V text.
Proof.
  intros Hk Ht. unfold is_bangla_text.
  replace (@has_system_keyword U text) with (@has_system_keyword V text);
    [reflexivity|].
  unfold has_system_keyword. rewrite (lower_agree text Ht).
  induction system_keywords as [|kw kws IH]; [reflexivity|].
  apply forallb_tail in Hk. destruct Hk as [Hkw Hkws].
  cbn [existsb]. rewrite (lower_agree kw Hkw). f_equal. now apply IH.
Qed.

Lemma filter_bangla_messages_agree messages :
  forallb (forallb P) system_keywords = true ->
  forallb (fun m => forallb P (message m)) messages = true ->
  @filter_bangla_messages U messages = @filter_bangla_messages V messages.
Proof.
  intros Hk. unfold filter_bangla_messages. generalize (@nil msg).
  induction messages as [|m rest IH]; intros acc H; [reflexivity|].
  apply forallb_tail in H. destruct H as [Hm Hr].
  cbn [filter_loop]. rewrite is_bangla_text_agree by assumption.
  destruct (@is_bangla_text V (message m)) as [e|b]; [reflexivity|].
  cbn. now apply IH.
Qed.

End Agreement.

Lemma ascii_bengali_agrees : agrees_on_blocks ascii_bengali.
Proof. split; reflexivity. Qed.

Lemma scenario_parsed : @parse_whatsapp_chat ascii_bengali chat_log = [alice_msg; bob_msg].
Proof. vm_compute. reflexivity. Qed.

(** ** The division against the kernel's floats

    On every pair of counters up to 60, and on pairs near the precision of
    a float, [truediv] is the binary64 division. *)
Example truediv_is_binary64_division :
  forallb (fun b => forallb (fun a => Py.same_as_binary64 a b)
                            (map Z.of_nat (seq 0 61)))
          (map Z.of_nat (seq 1 60)) = true
  /\ forallb (fun '(a, b) => Py.same_as_binary64 a b)
       [ (1, 2 ^ 53 - 1); (2 ^ 51 + 1, 2 ^ 53 - 1); (2 ^ 52 - 1, 2 ^ 53 - 3);
         (2 ^ 50, 2 ^ 52 + 1); (2 ^ 50, 2 ^ 52 - 1); (2 ^ 50 + 1, 2 ^ 52 + 3);
         (3, 2 ^ 40 + 1); (2 ^ 53 - 1, 3); (2 ^ 53 - 1, 2 ^ 53 - 2) ] = true.
Proof. split; vm_compute; reflexivity. Qed.

(** ** The pattern on sample lines *)

(** Capital marker without a space, a phone number as sender; the first
    colon after the dash ends the sender, later ones belong to the text. *)
Example header_phone_number :
  @header ascii_bengali (u "12/02/2024, 9:05PM - +880 1711-000000 :x:y") =
  Some (mkmsg (u "12/02/2024") (u "9:05PM") (u "+880 1711-000000") (u "x:y")).
Proof. vm_compute. reflexivity. Qed.

Example header_sender_with_colon :
  @header ascii_bengali (u "1/2/2024, 9:05 am - Tom: Jerry: hi") =
  Some (mkmsg (u "1/2/2024") (u "9:05 am") (u "Tom") (u "Jerry: hi")).
Proof. vm_compute. reflexivity. Qed.

(** Whitespace alone before the colon: the repetition after the dash gives
    one character back and the sender is empty once stripped. *)
Example header_blank_sender :
  @header ascii_bengali (u "12/02/2024, 9:05PM-  : hi  ") =
  Some (mkmsg (u "12/02/2024") (u "9:05PM") (u "") (u "hi"))
  /\ @header ascii_bengali (u "12/02/2024, 9:05PM-: hi") = None.
Proof. split; vm_compute; reflexivity. Qed.

(** A narrow no-break space (U+202F) before the marker and a carriage
    return at the end of the line. *)
Example header_narrow_space :
  @header ascii_bengali
    (u "1/2/2024, 9:05" ++ [0x202F%N] ++ u "am - A: x" ++ [13%N]) =
  Some (mkmsg (u "1/2/2024") (u "9:05" ++ [0x202F%N] ++ u "am") (u "A") (u "x")).
Proof. vm_compute. reflexivity. Qed.

(** Bengali digits are decimal digits. *)
Example header_bengali_digits :
  @header ascii_bengali
    (bn [0x9E7; 0x2F; 0x9E8; 0x2F; 0x9E8; 0x9E6; 0x9E8; 0x9EA; 0x2C; 0x20;
         0x9EF; 0x3A; 0x9E6; 0x9EB] ++ u " am - A: x") =
  Some (mkmsg (bn [0x9E7; 0x2F; 0x9E8; 0x2F; 0x9E8; 0x9E6; 0x9E8; 0x9EA])
              (bn [0x9EF; 0x3A; 0x9E6; 0x9EB] ++ u " am") (u "A") (u "x")).
Proof. vm_compute. reflexivity. Qed.

Example header_rejected :
  @header ascii_bengali (u "123/02/2024, 9:05 pm - A: x") = None
  /\ @header ascii_bengali (u "12/02/20245, 9:05 pm - A: x") = None
  /\ @header ascii_bengali (u "12/02/2024, 9:05 pm - A") = None
  /\ @header ascii_bengali (u "12/02/2024, 9:05 - A: x") = None.
Proof. repeat split; vm_compute; reflexivity. Qed.

(** * Lines, fields and joined texts *)

(** ** Splitting and joining *)

Lemma split_nonempty sep s : Py.split sep s <> [].
Proof.
  destruct s as [|c s]; cbn [Py.split]; [discriminate|].
  destruct (c =? sep)%N; [discriminate|].
  destruct (Py.split sep s); discriminate.
Qed.

Lemma split_cons_other sep c s :
  c <> sep ->
  exists piece pieces,
    Py.split sep s = piece :: pieces
    /\ Py.split sep (c :: s) = (c :: piece) :: pieces.
Proof.
  intros Hc. cbn [Py.split].
  destruct (N.eqb_spec c sep); [contradiction|].
  destruct (Py.split sep s) as [|piece pieces] eqn:E.
  - now apply split_nonempty in E.
  - eauto.
Qed.

(** No piece of a split holds the separator. *)
Lemma split_no_sep sep s : Forall (fun piece => ~ In sep piece) (Py.split sep s).
Proof.
  induction s as [|c s IH]; cbn [Py.split].
  - constructor; [tauto|constructor].
  - destruct (N.eqb_spec c sep) as [->|Hc].
    + constructor; [tauto|assumption].
    + destruct (Py.split sep s) as [|piece pieces]; [constructor; [|constructor]|].
      * intros [H|[]]. congruence.
      * inversion IH as [|? ? Hp Hps]; subst. constructor; [|assumption].
        intros [H|H]; [congruence|contradiction].
Qed.

Lemma split_app_sep sep a b :
  Py.split sep (a ++ sep :: b) = Py.split sep a ++ Py.split sep b.
Proof.
  induction a as [|c a IH]; cbn [app Py.split].
  - now rewrite N.eqb_refl.
  - destruct (c =? sep)%N; [now rewrite IH|].
    rewrite IH. destruct (Py.split sep a) as [|piece pieces] eqn:E.
    + now apply split_nonempty in E.
    + reflexivity.
Qed.

Lemma split_app_free sep a s :
  ~ In sep a ->
  exists piece pieces,
    Py.split sep s = piece :: pieces
    /\ Py.split sep (a ++ s) = (a ++ piece) :: pieces.
Proof.
  induction a as [|c a IH]; intros Ha.
  - destruct (Py.split sep s) as [|piece pieces] eqn:E.
    + now apply split_nonempty in E.
    + exists piece, pieces. auto.
  - destruct IH as (piece & pieces & E1 & E2); [intros H; apply Ha; now right|].
    destruct (split_cons_other sep c (a ++ s)) as (p' & ps' & E3 & E4).
    { intros ->. apply Ha. now left. }
    rewrite E2 in E3. inversion E3; subst p' ps'.
    exists piece, pieces. auto.
Qed.

Lemma split_one_line_gen sep s : ~ In sep s -> Py.split sep s = [s].
Proof.
  induction s as [|c s IH]; intros H; cbn [Py.split]; [reflexivity|].
  destruct (N.eqb_spec c sep) as [->|_]; [exfalso; apply H; now left|].
  rewrite IH; [reflexivity|]. intros Hin. apply H. now right.
Qed.

(** Joining pieces that are free of the separator and splitting again
    gives the pieces back. *)
Lemma split_join sep piece pieces :
  Forall (fun p => ~ In sep p) (piece :: pieces) ->
  Py.split sep (Py.join [sep] (piece :: pieces)) = piece :: pieces.
Proof.
  revert piece. induction pieces as [|q pieces IH]; intros piece H.
  - cbn [Py.join]. inversion H; subst. now apply split_one_line_gen.
  - inversion H as [|? ? Hp Hr]; subst.
    change (Py.join [sep] (piece :: q :: pieces))
      with (piece ++ sep :: Py.join [sep] (q :: pieces)).
    rewrite split_app_sep, IH by assumption.
    now rewrite split_one_line_gen.
Qed.

(** ** Stripping *)

Lemma lstrip_fixed s :
  Py.lstrip s = s <-> match s with [] => True | c :: _ => Py.isspace c = false end.
Proof.
  destruct s as [|c s]; cbn; [tauto|].
  destruct (Py.isspace c) eqn:Hc; split; try reflexivity; try discriminate.
  intros H. destruct (lstrip_suffix s) as (w & E & _).
  apply (f_equal (@length _)) in H. rewrite E in H at 2.
  cbn in H. rewrite length_app in H. lia.
Qed.

Lemma lstrip_idem s : Py.lstrip (Py.lstrip s) = Py.lstrip s.
Proof.
  induction s as [|c s IH]; [reflexivity|]. cbn [Py.lstrip].
  destruct (Py.isspace c) eqn:Hc; [exact IH|]. cbn. now rewrite Hc.
Qed.

Lemma rstrip_prefix s :
  exists w, s = Py.rstrip s ++ w /\ forallb Py.isspace w = true.
Proof.
  unfold Py.rstrip. destruct (lstrip_suffix (rev s)) as (w & E & Hw).
  exists (rev w). split; [|now rewrite forallb_rev].
  rewrite <- rev_app_distr, <- E. now rewrite rev_involutive.
Qed.

Lemma rstrip_idem s : Py.rstrip (Py.rstrip s) = Py.rstrip s.
Proof. unfold Py.rstrip. now rewrite rev_involutive, lstrip_idem. Qed.

Lemma lstrip_rstrip s : Py.lstrip s = s -> Py.lstrip (Py.rstrip s) = Py.rstrip s.
Proof.
  intros H. apply lstrip_fixed. apply lstrip_fixed in H.
  destruct (rstrip_prefix s) as (w & E & _).
  destruct (Py.rstrip s) as [|c r]; [exact I|].
  rewrite E in H. exact H.
Qed.

Lemma strip_idem s : Py.strip (Py.strip s) = Py.strip s.
Proof.
  unfold Py.strip. rewrite lstrip_rstrip by apply lstrip_idem. apply rstrip_idem.
Qed.

(** Stripping only removes characters. *)
Lemma strip_incl s c : In c (Py.strip s) -> In c s.
Proof.
  intros H. unfold Py.strip in H.
  destruct (lstrip_suffix s) as (w1 & E1 & _).
  destruct (rstrip_prefix (Py.lstrip s)) as (w2 & E2 & _).
  rewrite E1, E2. apply in_or_app. right. apply in_or_app. now left.
Qed.

Lemma strip_free c s : ~ In c s -> ~ In c (Py.strip s).
Proof. intros H Hin. apply H. now apply strip_incl. Qed.

(** A stripped string neither starts nor ends with whitespace. *)
Lemma strip_last_not_space s c : Py.strip (s ++ [c]) = s ++ [c] -> Py.isspace c = false.
Proof.
  intros H. destruct (Py.isspace c) eqn:Hc; [|reflexivity].
  rewrite strip_app_space_r in H by (cbn; now rewrite Hc).
  pose proof (f_equal (@length _) H) as HL. rewrite length_app in HL. cbn in HL.
  assert (length (Py.strip s) <= length s)%nat; [|lia].
  unfold Py.strip.
  destruct (lstrip_suffix s) as (w1 & E1 & _).
  destruct (rstrip_prefix (Py.lstrip s)) as (w2 & E2 & _).
  rewrite E1 at 2. rewrite E2 at 2. rewrite !length_app. lia.
Qed.

Lemma rstrip_app_nonspace s t c :
  Py.isspace c = false -> Py.rstrip (s ++ t ++ [c]) = s ++ t ++ [c].
Proof.
  intros Hc. unfold Py.rstrip. rewrite app_assoc, rev_app_distr. cbn.
  rewrite Hc. cbn. now rewrite rev_involutive.
Qed.

(** ** The fields of a header *)

Lemma span_rep_len p lo hi pos s caps pos' s' caps' :
  Re.span (Re.Rep p lo hi) pos s caps pos' s' caps' ->
  exists w, s = w ++ s' /\ forallb p w = true
            /\ (lo <= length w)%nat
            /\ match hi with Some h => (length w <= h)%nat | None => True end
            /\ caps' = caps.
Proof. cbn. intros (w & -> & H & Hlo & Hhi & _ & ->). exists w. auto. Qed.

Lemma span_ilit2 a b pos s caps pos' s' caps' :
  Re.span (Re.Cat (Re.Chr (fun ch => (ch =? a) || (ch =? a - 32))%N)
                  (Re.Chr (fun ch => (ch =? b) || (ch =? b - 32))%N))
          pos s caps pos' s' caps' ->
  exists x y, s = [x; y] ++ s'
              /\ (x = a \/ x = (a - 32)%N) /\ (y = b \/ y = (b - 32)%N).
Proof.
  cbn. intros (p1 & s1 & c1 & (x & -> & Hx & _ & _) & (y & -> & Hy & _ & _)).
  exists x, y. split; [reflexivity|].
  apply orb_prop in Hx. apply orb_prop in Hy. rewrite !N.eqb_eq in Hx, Hy. auto.
Qed.

Section HeaderFields.
Context {ucd : UnicodeData}.
Import Re.

Lemma span_date pos s caps pos' s' caps' w :
  s = w ++ s' ->
  span (seq [Rep isdecimal 1 (Some 2%nat); lit "/"; Rep isdecimal 1 (Some 2%nat);
             lit "/"; Rep isdecimal 4 (Some 4%nat)]) pos s caps pos' s' caps' ->
  date_shape w.
Proof.
  intros E H. cbn [seq] in H.
  apply span_cat in H. destruct H as (p1 & s1 & c1 & H1 & H).
  apply span_rep_len in H1. destruct H1 as (d1 & -> & Hd1 & L1 & U1 & _).
  apply span_cat in H. destruct H as (p2 & s2 & c2 & H2 & H).
  apply span_chr in H2. destruct H2 as (x2 & -> & Hx2 & _).
  apply N.eqb_eq in Hx2. subst x2.
  apply span_cat in H. destruct H as (p3 & s3 & c3 & H3 & H).
  apply span_rep_len in H3. destruct H3 as (d2 & -> & Hd2 & L2 & U2 & _).
  apply span_cat in H. destruct H as (p4 & s4 & c4 & H4 & H).
  apply span_chr in H4. destruct H4 as (x4 & -> & Hx4 & _).
  apply N.eqb_eq in Hx4. subst x4.
  apply span_rep_len in H. destruct H as (d3 & -> & Hd3 & L3 & U3 & _).
  exists d1, d2, d3. unfold digits. repeat split; try assumption; try lia.
  apply (app_inv_tail s'). rewrite <- E.
  change (u "/") with [N_of_ascii "/"]. rewrite <- ?app_assoc. reflexivity.
Qed.

Lemma span_time pos s caps pos' s' caps' w :
  s = w ++ s' ->
  span (seq [Rep isdecimal 1 (Some 2%nat); lit ":"; Rep isdecimal 2 (Some 2%nat);
             Rep Py.isspace 0 None; Alt (ilit "am") (ilit "pm")])
       pos s caps pos' s' caps' ->
  time_shape w.
Proof.
  intros E H. cbn [seq] in H.
  apply span_cat in H. destruct H as (p1 & s1 & c1 & H1 & H).
  apply span_rep_len in H1. destruct H1 as (t1 & -> & Ht1 & L1 & U1 & _).
  apply span_cat in H. destruct H as (p2 & s2 & c2 & H2 & H).
  apply span_chr in H2. destruct H2 as (x2 & -> & Hx2 & _).
  apply N.eqb_eq in Hx2. subst x2.
  apply span_cat in H. destruct H as (p3 & s3 & c3 & H3 & H).
  apply span_rep_len in H3. destruct H3 as (t2 & -> & Ht2 & L2 & U2 & _).
  apply span_cat in H. destruct H as (p4 & s4 & c4 & H4 & H).
  apply span_rep_len in H4. destruct H4 as (ws & -> & Hws & _ & _ & _).
  assert (Hmk : exists mk, s4 = mk ++ s' /\ marker mk).
  { destruct H as [H|H]; apply span_ilit2 in H;
      destruct H as (x & y & -> & Hx & Hy); exists [x; y];
      (split; [reflexivity|]); unfold marker;
      destruct Hx as [-> | ->], Hy as [-> | ->]; cbn; auto. }
  destruct Hmk as (mk & -> & Hmk).
  exists t1, t2, ws, mk. unfold digits. repeat split; try assumption; try lia.
  apply (app_inv_tail s'). rewrite <- E.
  change (u ":") with [N_of_ascii ":"]. rewrite <- ?app_assoc. reflexivity.
Qed.

(** Everything the pattern says about a line it matches. *)
Lemma header_fields line h :
  header line = Some h ->
  exists ws1 ws2 ws3 w3 ws4 w4 tail,
    line = date h ++ u "," ++ ws1 ++ time h ++ ws2 ++ u "-" ++ ws3 ++ w3
           ++ u ":" ++ ws4 ++ w4 ++ tail
    /\ date_shape (date h) /\ time_shape (time h)
    /\ forallb Py.isspace ws1 = true /\ ws1 <> []
    /\ forallb Py.isspace ws2 = true /\ forallb Py.isspace ws3 = true
    /\ ~ In 58%N w3 /\ w3 <> []
    /\ forallb Py.isspace ws4 = true
    /\ ~ In 10%N w4 /\ (tail = [] \/ tail = [10%N])
    /\ sender h = Py.strip w3 /\ message h = Py.strip w4.
Proof.
  unfold header, re_match. intros H.
  destruct (rmatch pattern 0 line [] (fun _ _ caps => Some caps)) as [caps|] eqn:E;
    [|discriminate].
  inversion H; subst h; clear H. cbn [date time sender message].
  apply rmatch_sound in E. destruct E as (pos' & s' & caps' & H & E).
  inversion E; subst caps'; clear E.
  unfold pattern in H. cbn [seq] in H.
  apply span_cat in H. destruct H as (p0 & s0 & c0 & H0 & H).
  cbn in H0. destruct H0 as (_ & -> & -> & ->).
  apply span_cat in H. destruct H as (p1 & s1 & c1 & H1 & H).
  apply span_flat_group in H1; [|reflexivity]. destruct H1 as (w1 & E1 & -> & H1).
  apply (span_date _ _ _ _ _ _ w1 E1) in H1. subst line.
  apply span_cat in H. destruct H as (p2 & s2 & c2 & H2 & H).
  apply span_chr in H2. destruct H2 as (x2 & -> & Hx2 & ->).
  apply N.eqb_eq in Hx2. subst x2.
  apply span_cat in H. destruct H as (p3 & s3 & c3 & H3 & H).
  apply span_rep_len in H3. destruct H3 as (ws1 & -> & Hws1 & L1 & _ & ->).
  apply span_cat in H. destruct H as (p4 & s4 & c4 & H4 & H).
  apply span_flat_group in H4; [|reflexivity]. destruct H4 as (w2 & E2 & -> & H4).
  apply (span_time _ _ _ _ _ _ w2 E2) in H4. subst s3.
  apply span_cat in H. destruct H as (p5 & s5 & c5 & H5 & H).
  apply span_rep in H5. destruct H5 as (ws2 & -> & Hws2 & ->).
  apply span_cat in H. destruct H as (p6 & s6 & c6 & H6 & H).
  apply span_chr in H6. destruct H6 as (x6 & -> & Hx6 & ->).
  apply N.eqb_eq in Hx6. subst x6.
  apply span_cat in H. destruct H as (p7 & s7 & c7 & H7 & H).
  apply span_rep in H7. destruct H7 as (ws3 & -> & Hws3 & ->).
  apply span_cat in H. destruct H as (p8 & s8 & c8 & H8 & H).
  apply span_flat_group in H8; [|reflexivity]. destruct H8 as (w3 & -> & -> & H8).
  apply span_rep_len in H8. destruct H8 as (w3' & Ew3 & Hw3 & L3 & _ & _).
  apply app_inv_tail in Ew3. subst w3'.
  apply span_cat in H. destruct H as (p9 & s9 & c9 & H9 & H).
  apply span_chr in H9. destruct H9 as (x9 & -> & Hx9 & ->).
  apply N.eqb_eq in Hx9. subst x9.
  apply span_cat in H. destruct H as (p10 & s10 & c10 & H10 & H).
  apply span_rep in H10. destruct H10 as (ws4 & -> & Hws4 & ->).
  apply span_cat in H. destruct H as (p11 & s11 & c11 & H11 & H).
  apply span_flat_group in H11; [|reflexivity]. destruct H11 as (w4 & -> & -> & H11).
  apply span_rep in H11. destruct H11 as (w4' & Ew4 & Hw4 & _).
  apply app_inv_tail in Ew4. subst w4'.
  cbn [span] in H. destruct H as (Hend & _ & -> & ->).
  cbn [group Nat.eqb].
  exists ws1, ws2, ws3, w3, ws4, w4, s11.
  split.
  { change (u ",") with [N_of_ascii ","]. change (u "-") with [N_of_ascii "-"].
    change (u ":") with [N_of_ascii ":"]. rewrite <- ?app_assoc. reflexivity. }
  do 3 (split; [assumption|]).
  split; [intros ->; cbn in L1; lia|].
  do 2 (split; [assumption|]).
  split; [now apply (forallb_not_in (other_than 58%N) 58%N w3)|].
  split; [intros ->; cbn in L3; lia|].
  split; [assumption|].
  split; [now apply (forallb_not_in any 10%N w4)|].
  split; [assumption|]. split; reflexivity.
Qed.

(** A line that matches has a character that is not whitespace. *)
Lemma header_nonblank line h : header line = Some h -> nonblank line = true.
Proof.
  intros H. apply header_fields in H.
  destruct H as (ws1 & ws2 & ws3 & w3 & ws4 & w4 & tail & -> & _).
  unfold nonblank. destruct (Py.strip _) eqn:E; [|reflexivity].
  apply strip_nil_iff in E. rewrite !forallb_app in E.
  change (forallb Py.isspace (u ",")) with false in E.
  now rewrite andb_false_r in E.
Qed.

End HeaderFields.

(** ** Blank lines, joined chats, the lines of a message *)

Lemma join_cons sep p q qs :
  Py.join sep (p :: q :: qs) = p ++ sep ++ Py.join sep (q :: qs).
Proof. reflexivity. Qed.

Lemma join_snoc sep p ps q :
  Py.join sep ((p :: ps) ++ [q]) = Py.join sep (p :: ps) ++ sep ++ q.
Proof.
  revert p. induction ps as [|r ps IH]; intros p; [reflexivity|].
  change ((p :: r :: ps) ++ [q]) with (p :: ((r :: ps) ++ [q])).
  cbn [app]. rewrite !join_cons. change (r :: ps ++ [q]) with ((r :: ps) ++ [q]).
  rewrite IH. now rewrite <- !app_assoc.
Qed.

Lemma join_concat p ps :
  Py.join [10%N] (p :: ps) = p ++ concat (map (fun q => [10%N] ++ q) ps).
Proof.
  revert p. induction ps as [|q ps IH]; intros p.
  - cbn. now rewrite app_nil_r.
  - rewrite join_cons, IH. cbn [map concat]. now rewrite <- !app_assoc.
Qed.

Section LineFacts.
Context {ucd : UnicodeData}.

Lemma blank_not_header line : nonblank line = false -> header line = None.
Proof.
  intros H. destruct (header line) as [h|] eqn:E; [|reflexivity].
  apply header_nonblank in E. congruence.
Qed.

Lemma parse_step_blank st line : nonblank line = false -> parse_step st line = st.
Proof.
  intros H. unfold parse_step. destruct st as [ms cur].
  rewrite (blank_not_header line H). unfold nonblank in H. rewrite H.
  now destruct cur.
Qed.

Lemma run_without_blank lines : forall st,
  fold_left parse_step (filter nonblank lines) st = fold_left parse_step lines st.
Proof.
  induction lines as [|line lines IH]; intros st; [reflexivity|].
  cbn [filter fold_left]. destruct (nonblank line) eqn:E.
  - cbn [fold_left]. apply IH.
  - rewrite parse_step_blank by assumption. apply IH.
Qed.

Lemma parse_lines_without_blank lines :
  parse_lines (filter nonblank lines) = parse_lines lines.
Proof. rewrite !parse_lines_finish. now rewrite run_without_blank. Qed.

Lemma header_message_tidy line h :
  header line = Some h -> ~ In 10%N (message h) /\ stripped (message h).
Proof.
  intros H. apply header_fields in H.
  destruct H as (ws1 & ws2 & ws3 & w3 & ws4 & w4 & tail & _ & _ & _ & _ & _ & _
                 & _ & _ & _ & _ & Hw4 & _ & _ & ->).
  split; [now apply strip_free|apply strip_idem].
Qed.

Lemma tidy_header line h : header line = Some h -> tidy (message h).
Proof.
  intros H. apply header_message_tidy in H. destruct H as [H1 H2].
  exists (message h), []. repeat split; try assumption. constructor.
Qed.

Lemma tidy_append m line :
  tidy (message m) -> ~ In 10%N line -> nonblank line = true ->
  tidy (message (append_line m line)).
Proof.
  intros (first & rest & E & H1 & H2 & H3) Hl Hn.
  exists first, (rest ++ [Py.strip line]). cbn [append_line message].
  split; [|split; [assumption|split; [assumption|]]].
  - rewrite E. change (first :: rest ++ [Py.strip line])
      with ((first :: rest) ++ [Py.strip line]). now rewrite join_snoc.
  - apply Forall_app. split; [assumption|]. constructor; [|constructor].
    split; [now apply strip_free|]. split; [apply strip_idem|].
    unfold nonblank in Hn. now destruct (Py.strip line).
Qed.

(** Loop invariant: every text built so far is tidy. *)
Lemma run_tidy lines : forall ms cur,
  Forall (fun line => ~ In 10%N line) lines ->
  Forall (fun m => tidy (message m)) (flush ms cur) ->
  Forall (fun m => tidy (message m)) (finish (fold_left parse_step lines (ms, cur))).
Proof.
  induction lines as [|line lines IH]; intros ms cur Hl H; [exact H|].
  inversion Hl as [|? ? Hline Hrest]; subst. cbn [fold_left].
  unfold parse_step at 2. destruct (header line) as [h|] eqn:Hh.
  - apply IH; [assumption|]. cbn [flush]. apply Forall_app. split; [assumption|].
    constructor; [|constructor]. now apply tidy_header with (line := line).
  - destruct cur as [m|]; [|now apply IH].
    destruct (truthy (Py.strip line)) eqn:Hn; [|now apply IH].
    apply IH; [assumption|]. cbn [flush] in *.
    apply Forall_app in H. destruct H as [Hms Hm].
    apply Forall_app. split; [assumption|].
    inversion Hm; subst. constructor; [|constructor]. now apply tidy_append.
Qed.

Lemma parse_tidy chat_text :
  Forall (fun m => tidy (message m)) (parse_whatsapp_chat chat_text).
Proof.
  unfold parse_whatsapp_chat. rewrite parse_lines_finish.
  apply run_tidy; [apply split_no_sep|constructor].
Qed.

Lemma tidy_lines text :
  tidy text ->
  exists first rest,
    Py.split 10%N text = first :: rest
    /\ stripped first /\ Forall (fun p => stripped p /\ p <> []) rest.
Proof.
  intros (first & rest & -> & H1 & H2 & H3). exists first, rest.
  split; [|split; [assumption|]].
  - apply split_join. constructor; [assumption|].
    eapply Forall_impl; [|exact H3]. cbn. tauto.
  - eapply Forall_impl; [|exact H3]. cbn. tauto.
Qed.

End LineFacts.

Section FieldFacts.
Context {ucd : UnicodeData}.

Lemma header_lines_origin lines :
  Forall (fun h => exists line, header line = Some h) (header_lines lines).
Proof.
  induction lines as [|line lines IH]; [constructor|].
  unfold header_lines. cbn [flat_map]. fold (header_lines lines).
  destruct (header line) as [h|] eqn:E; [|exact IH].
  constructor; [eauto|exact IH].
Qed.

Lemma Forall2_Forall_r {A B} (R : A -> B -> Prop) (P : A -> Prop) (Q : B -> Prop) l1 l2 :
  (forall x y, R x y -> P x -> Q y) ->
  Forall2 R l1 l2 -> Forall P l1 -> Forall Q l2.
Proof.
  intros HR H. induction H as [|x y l1 l2 Hxy _ IH]; intros HP; [constructor|].
  inversion HP; subst. constructor; eauto.
Qed.

Lemma header_sender line h :
  header line = Some h -> stripped (sender h) /\ ~ In 58%N (sender h).
Proof.
  intros H. apply header_fields in H.
  destruct H as (ws1 & ws2 & ws3 & w3 & ws4 & w4 & tail & _ & _ & _ & _ & _ & _
                 & _ & Hw3 & _ & _ & _ & _ & -> & _).
  split; [apply strip_idem|now apply strip_free].
Qed.

End FieldFacts.

(** ** The matcher finds a match when there is one *)

Section MatcherComplete.
Import Re.
Context {A : Type}.



End MatcherComplete.

(** ** The header grammar and the pattern *)








Section GrammarFacts.
Context {ucd : UnicodeData}.
Import Re.








End GrammarFacts.

(** The grammar on a sample line, spelled out. *)
Example alice_line_in_grammar : @header_of ascii_bengali alice_line alice_header.
Proof.
  exists (u " "), (u " "), (u " Alice"), (u " one").
  split; [reflexivity|].
  split; [exists (u "1"), (u "2"), (u "2024"); repeat split; cbn; lia|].
  split.
  { exists (u "9"), (u "05"), (u " "), (u "am"). repeat split; try (cbn; lia).
    now left. }
  repeat split; try discriminate.
  vm_compute. intuition discriminate.
Qed.

(** * Main theorems *)


(** C2. For a text with no exclusion keyword and at least one counted
    character, [is_bangla_text] answers true exactly when
    [bangla_chars / total_chars >= 1/4] as rationals, the bound included:
    one Bengali character among four counted ones is classified true, one
    among five false. The code compares the quotient rounded to a float;
    the two comparisons agree on every text with fewer than [2^54] counted
    characters, a size no string held in memory reaches. *)
Theorem is_bangla_text_quarter_threshold
  (ucd : UnicodeData) (text : str) (bangla_chars total_chars : Z) :
  count_chars text = (bangla_chars, total_chars) ->
  has_system_keyword text = false ->
  0 < total_chars < 2 ^ 54 ->
  (is_bangla_text text = inr true <-> ratio_ge_quarter bangla_chars total_chars)
  /\ (is_bangla_text text = inr false <-> ~ ratio_ge_quarter bangla_chars total_chars)
  /\ (bangla_chars = 1 -> total_chars = 4 -> is_bangla_text text = inr true)
  /\ (bangla_chars = 1 -> total_chars = 5 -> is_bangla_text text = inr false).
Proof.
  intros Hc Hk Ht.
  rewrite (is_bangla_text_exact text _ _ Hc Hk Ht).
  rewrite ratio_ge_quarter_iff by lia.
  destruct (Z.leb_spec total_chars (4 * bangla_chars)) as [H|H].
  - repeat split; intros; try lia; try discriminate; try reflexivity.
  - repeat split; intros; try lia; try discriminate; try reflexivity.
Qed.

Lemma is_bangla_text_quarter_threshold_witness :
  @is_bangla_text ascii_bengali one_of_four = inr true
  /\ @is_bangla_text ascii_bengali one_of_five = inr false.
Proof.
  split.
  - apply (is_bangla_text_quarter_threshold ascii_bengali one_of_four 1 4);
      try reflexivity. split; reflexivity.
  - apply (is_bangla_text_quarter_threshold ascii_bengali one_of_five 1 5);
      try reflexivity. split; reflexivity.
Defined.

(** Why the size appears in the statement above: the lists of this model
    have no bound, and on [huge_text], which has [2^54 + 1] characters,
    the exact ratio [2^52 / (2^54 + 1)] is below [1/4] while its rounding
    is the float [0.25]. A string of that length takes at least 32 PiB, so
    the program never sees one. *)
Lemma exact_comparison_fails_on_huge_text :
  count_chars huge_text = (2 ^ 52, 2 ^ 54 + 1)
  /\ @has_system_keyword ascii_bengali huge_text = false
  /\ ~ ratio_ge_quarter (2 ^ 52) (2 ^ 54 + 1)
  /\ @is_bangla_text ascii_bengali huge_text = inr true.
Proof.
  unfold huge_text. split; [|split; [|split]].
  - rewrite count_chars_app, !count_chars_repeat.
    change (count_step (0, 0) 0x995%N) with (1, 1).
    change (count_step (0, 0) 0x78%N) with (0, 1).
    cbn [fst snd]. rewrite !N_nat_Z. vm_compute. reflexivity.
  - apply two_blocks_no_keyword.
  - rewrite ratio_ge_quarter_iff by reflexivity. vm_compute. congruence.
  - rewrite two_blocks_classified.
    + rewrite !N_nat_Z. vm_compute. reflexivity.
    + apply Nat2Z.inj_lt. rewrite N_nat_Z. reflexivity.
Qed.

(** C3. Once a header line has matched, the lines up to the next header
    line (or the end of the chat) that do not match and are not blank are
    appended to the text of its message, each stripped and after a newline,
    in line order; none is dropped. *)
Theorem continuation_lines_appended
  (ucd : UnicodeData) (chat_text : str) (pre : list str) (line : str)
  (conts rest : list str) (h : msg) :
  Py.split 10%N chat_text = pre ++ line :: conts ++ rest ->
  header line = Some h ->
  Forall (fun l => header l = None) conts ->
  starts_afresh rest ->
  parse_whatsapp_chat chat_text =
  parse_lines pre
  ++ [ {| date := date h; time := time h; sender := sender h;
          message := message h ++ continuation conts |} ]
  ++ parse_lines rest.
Proof.
  intros Hs Hh Hc Hr. unfold parse_whatsapp_chat. rewrite Hs.
  now apply parse_lines_message.
Qed.

Lemma continuation_lines_appended_witness :
  @parse_whatsapp_chat ascii_bengali chat_with_banner =
  [ {| date := u "1/2/2024"; time := u "9:05 am"; sender := u "Alice";
       message := u "one" ++ [10%N] ++ u "two" ++ [10%N] ++ u "three" |};
    {| date := u "2/2/2024"; time := u "9:06 am"; sender := u "Bob";
       message := u "hi" |} ].
Proof.
  rewrite (continuation_lines_appended ascii_bengali chat_with_banner
             [banner] alice_line [u "  two  "; u ""; u "three"] [bob_line]
             (mkmsg (u "1/2/2024") (u "9:05 am") (u "Alice") (u "one"))).
  - vm_compute. reflexivity.
  - vm_compute. reflexivity.
  - vm_compute. reflexivity.
  - repeat constructor.
  - vm_compute. reflexivity.
Defined.

(** C4. A text that contains an entry of the exclusion list, both
    lowercased, is classified false whatever its characters are; the
    check comes before the ratio test. In particular
    [is_bangla_text("<Media omitted>")] is false. *)
Theorem is_bangla_text_system_keyword (ucd : UnicodeData) :
  (forall text keyword,
     In keyword system_keywords ->
     Py.contains (lower keyword) (lower text) = true ->
     is_bangla_text text = inr false)
  /\ is_bangla_text (u "<Media omitted>") = inr false.
Proof.
  split.
  - apply @is_bangla_text_keyword.
  - apply is_bangla_text_keyword with (keyword := u "<Media omitted>").
    + unfold system_keywords. simpl. tauto.
    + apply contains_refl.
Qed.

(** An all-Bengali text with the keyword [left] in capitals: the ratio
    test would accept it, the exclusion list rejects it. *)
Lemma is_bangla_text_system_keyword_witness :
  @is_bangla_text ascii_bengali bengali_with_keyword = inr false
  /\ @count_chars bengali_with_keyword = (14, 19).
Proof.
  split.
  - apply (proj1 (is_bangla_text_system_keyword ascii_bengali)
             bengali_with_keyword (u "left")).
    + unfold system_keywords. simpl. tauto.
    + vm_compute. reflexivity.
  - vm_compute. reflexivity.
Defined.

(** C5. The scenario of the specification, for every Unicode database
    that is on the ASCII and Bengali blocks what the interpreter's is: the
    chat of two header lines and one continuation line gives the two
    messages of Alice and Bob, the first with the two Bengali lines joined
    by a newline; the classifier answers true for the first text and false
    for the second. *)
Theorem scenario_two_messages (ucd : UnicodeData) :
  agrees_on_blocks ucd ->
  parse_whatsapp_chat chat_log = [alice_msg; bob_msg]
  /\ sender alice_msg = u "Alice"
  /\ message alice_msg = hello_bn ++ [10%N] ++ how_are_you_bn
  /\ sender bob_msg = u "Bob"
  /\ message bob_msg = u "hi"
  /\ map (fun m => is_bangla_text (message m)) (parse_whatsapp_chat chat_log)
     = [inr true; inr false]
  /\ filter_bangla_messages (parse_whatsapp_chat chat_log) = inr [alice_msg].
Proof.
  intros [Hd Hl].
  assert (E : parse_whatsapp_chat chat_log = [alice_msg; bob_msg]).
  { rewrite (parse_whatsapp_chat_agree ucd ascii_bengali in_blocks Hd chat_log)
      by (vm_compute; reflexivity).
    apply scenario_parsed. }
  rewrite E. repeat (split; [reflexivity|]). split.
  - cbn [map].
    rewrite !(is_bangla_text_agree ucd ascii_bengali in_blocks Hl)
      by (vm_compute; reflexivity).
    vm_compute. reflexivity.
  - rewrite (filter_bangla_messages_agree ucd ascii_bengali in_blocks Hl)
      by (vm_compute; reflexivity).
    vm_compute. reflexivity.
Qed.

Lemma scenario_two_messages_witness :
  @parse_whatsapp_chat ascii_bengali chat_log = [alice_msg; bob_msg]
  /\ sender alice_msg = u "Alice"
  /\ message alice_msg = hello_bn ++ [10%N] ++ how_are_you_bn
  /\ sender bob_msg = u "Bob"
  /\ message bob_msg = u "hi"
  /\ map (fun m => @is_bangla_text ascii_bengali (message m))
         (@parse_whatsapp_chat ascii_bengali chat_log)
     = [inr true; inr false]
  /\ @filter_bangla_messages ascii_bengali (@parse_whatsapp_chat ascii_bengali chat_log)
     = inr [alice_msg].
Proof.
  apply (scenario_two_messages ascii_bengali). split; reflexivity.
Defined.

(** C6, as amended. The text of the message a header line starts is what
    follows the first colon after the dash, stripped of whitespace on both
    sides (so whitespace that ends the line is removed too); a chat of
    that one line gives exactly that message. *)
Theorem header_text_stripped (ucd : UnicodeData) (line : str) (h : msg) :
  header line = Some h ->
  (exists ws1 ws2 raw rest,
     line = date h ++ u "," ++ ws1 ++ time h ++ ws2 ++ u "-" ++ raw ++ u ":" ++ rest
     /\ forallb Py.isspace ws1 = true /\ forallb Py.isspace ws2 = true
     /\ ~ In 58%N raw
     /\ sender h = Py.strip raw
     /\ message h = Py.strip rest)
  /\ (~ In 10%N line -> parse_whatsapp_chat line = [h]).
Proof.
  intros H. split; [now apply header_shape|].
  intros Hnl. unfold parse_whatsapp_chat. rewrite split_one_line by assumption.
  unfold parse_lines. cbn [fold_left]. unfold parse_step. rewrite H. reflexivity.
Qed.

Lemma header_text_stripped_witness :
  (exists ws1 ws2 raw rest,
     padded_line = u "1/2/2024" ++ u "," ++ ws1 ++ u "9:05 am" ++ ws2 ++ u "-"
                   ++ raw ++ u ":" ++ rest
     /\ forallb Py.isspace ws1 = true /\ forallb Py.isspace ws2 = true
     /\ ~ In 58%N raw
     /\ u "Alice" = Py.strip raw
     /\ u "hi" = Py.strip rest)
  /\ (~ In 10%N padded_line ->
      @parse_whatsapp_chat ascii_bengali padded_line =
      [mkmsg (u "1/2/2024") (u "9:05 am") (u "Alice") (u "hi")]).
Proof.
  apply (header_text_stripped ascii_bengali padded_line
           (mkmsg (u "1/2/2024") (u "9:05 am") (u "Alice") (u "hi"))).
  vm_compute. reflexivity.
Defined.

(** C6 as stated fails: stripping only the leading whitespace of what
    follows the colon would keep the two spaces that end [padded_line];
    the message has the text without them. *)
Lemma header_text_loses_trailing_whitespace :
  padded_line = u "1/2/2024, 9:05 am - Alice" ++ u ":" ++ u "  hi  "
  /\ Py.lstrip (u "  hi  ") = u "hi  "
  /\ @parse_whatsapp_chat ascii_bengali padded_line =
     [mkmsg (u "1/2/2024") (u "9:05 am") (u "Alice") (u "hi")]
  /\ u "hi" <> u "hi  ".
Proof.
  split; [|split; [|split]]; vm_compute; try reflexivity. discriminate.
Qed.

(** C7. Lines that do not match the header pattern and come before the
    first header line are dropped: the result is that of the remaining
    lines alone, and a chat with no header line gives no message. *)
Theorem lines_before_first_header_dropped
  (ucd : UnicodeData) (chat_text : str) (pre rest : list str) :
  Py.split 10%N chat_text = pre ++ rest ->
  Forall (fun l => header l = None) pre ->
  parse_whatsapp_chat chat_text = parse_lines rest
  /\ (rest = [] -> parse_whatsapp_chat chat_text = []).
Proof.
  intros Hs Hp. unfold parse_whatsapp_chat. rewrite Hs.
  rewrite parse_lines_skip by assumption.
  split; [reflexivity|]. intros ->. reflexivity.
Qed.

Lemma lines_before_first_header_dropped_witness :
  @parse_whatsapp_chat ascii_bengali chat_with_banner =
  @parse_lines ascii_bengali [alice_line; u "  two  "; u ""; u "three"; bob_line]
  /\ @parse_whatsapp_chat ascii_bengali chat_without_header = [].
Proof.
  split.
  - apply (proj1 (lines_before_first_header_dropped ascii_bengali chat_with_banner
                    [banner] [alice_line; u "  two  "; u ""; u "three"; bob_line]
                    eq_refl ltac:(repeat constructor))).
  - apply (proj2 (lines_before_first_header_dropped ascii_bengali chat_without_header
                    [banner; u ""; u "nothing else"] []
                    eq_refl ltac:(repeat constructor))).
    reflexivity.
Defined.

(** C8. A text whose characters are all whitespace or skipped
    punctuation, the empty text included, leaves [total_chars] at zero
    and is classified false. *)
Theorem is_bangla_text_uncounted (ucd : UnicodeData) (text : str) :
  Forall (fun c => Py.isspace c = true \/ In c punctuation) text ->
  snd (count_chars text) = 0 /\ is_bangla_text text = inr false.
Proof.
  intros H.
  assert (Hc : count_chars text = (0, 0)).
  { apply count_chars_uncounted. apply forallb_forall. intros c Hin.
    rewrite Forall_forall in H. destruct (H c Hin) as [Hs|Hp].
    - now rewrite counted_space.
    - now rewrite counted_punctuation. }
  split; [now rewrite Hc|].
  unfold is_bangla_text. rewrite Hc.
  destruct (negb (truthy text) || (len (Py.strip text) =? 0)); [reflexivity|].
  destruct (has_system_keyword text); reflexivity.
Qed.

Lemma is_bangla_text_uncounted_witness :
  (snd (count_chars (u "")) = 0 /\ @is_bangla_text ascii_bengali (u "") = inr false)
  /\ (snd (count_chars (u "   ")) = 0 /\ @is_bangla_text ascii_bengali (u "   ") = inr false)
  /\ (snd (count_chars (u " ?!... :-) ")) = 0
      /\ @is_bangla_text ascii_bengali (u " ?!... :-) ") = inr false).
Proof.
  split; [|split];
    apply (is_bangla_text_uncounted ascii_bengali);
    apply uncounted_check; vm_compute; reflexivity.
Defined.

(** C9. [is_bangla_text] returns a boolean on every text: neither the
    division by [total_chars] nor anything else raises, and a text with
    no counted character is answered false before the division. *)
Theorem is_bangla_text_never_fails (ucd : UnicodeData) :
  (forall text, exists b, is_bangla_text text = inr b)
  /\ (forall text, snd (count_chars text) = 0 -> is_bangla_text text = inr false)
  /\ (forall a, Py.truediv a 0 = inl Py.ZeroDivisionError).
Proof.
  split; [|split].
  - apply @is_bangla_text_total.
  - intros text H. unfold is_bangla_text.
    destruct (negb (truthy text) || (len (Py.strip text) =? 0)); [reflexivity|].
    destruct (has_system_keyword text); [reflexivity|].
    destruct (count_chars text) as [b t]. cbn [snd] in H. subst t. reflexivity.
  - reflexivity.
Qed.

(** C10. [filter_bangla_messages] returns the messages whose text the
    classifier answers true for, in their input order and unchanged. *)
Theorem filter_bangla_messages_spec (ucd : UnicodeData) (messages : list msg) :
  exists bangla_messages,
    filter_bangla_messages messages = inr bangla_messages
    /\ bangla_messages = filter is_bangla messages
    /\ subseq bangla_messages messages
    /\ (forall m, In m bangla_messages <->
                  In m messages /\ is_bangla_text (message m) = inr true).
Proof.
  exists (filter is_bangla messages). split; [|split; [|split]].
  - apply filter_bangla_messages_filter.
  - reflexivity.
  - apply subseq_filter.
  - intros m. rewrite filter_In. unfold is_bangla.
    destruct (is_bangla_text (message m)) as [e|[|]]; intuition congruence.
Qed.

(** * Further theorems: the parser *)

(** X1. Lines of whitespace only are ignored wherever they stand: the
    chat gives the same messages as its non-blank lines, and as the chat
    rebuilt from them. *)
Theorem blank_lines_ignored (ucd : UnicodeData) (chat_text : str) :
  parse_whatsapp_chat chat_text
  = parse_lines (filter nonblank (Py.split 10%N chat_text))
  /\ parse_whatsapp_chat (Py.join [10%N] (filter nonblank (Py.split 10%N chat_text)))
     = parse_whatsapp_chat chat_text.
Proof.
  unfold parse_whatsapp_chat. rewrite <- parse_lines_without_blank.
  split; [reflexivity|].
  pose proof (split_no_sep 10%N chat_text) as H.
  apply (incl_Forall (incl_filter nonblank _)) in H.
  destruct (filter nonblank (Py.split 10%N chat_text)) as [|piece pieces].
  - cbn [Py.join Py.split]. rewrite <- (parse_lines_without_blank [[]]). reflexivity.
  - now rewrite split_join.
Qed.

(** X2. Every message of a parsed chat has a date of the form
    digits/digits/digits with one or two, one or two and four digits, a
    time of the form digits:digits, whitespace, am or pm in any case, and
    a sender that has no colon and no whitespace at either end. *)
Theorem parsed_fields_shape (ucd : UnicodeData) (chat_text : str) :
  Forall (fun m => date_shape (date m) /\ time_shape (time m)
                   /\ stripped (sender m) /\ ~ In 58%N (sender m))
         (parse_whatsapp_chat chat_text).
Proof.
  unfold parse_whatsapp_chat.
  eapply Forall2_Forall_r;
    [|apply parse_lines_headers|apply header_lines_origin].
  intros h m (Hd & Ht & Hs & _) (line & Hl). rewrite Hd, Ht, Hs.
  destruct (header_sender line h Hl) as [H1 H2].
  apply header_fields in Hl.
  destruct Hl as (ws1 & ws2 & ws3 & w3 & ws4 & w4 & tail & _ & H3 & H4 & _).
  auto.
Qed.

(** X3. The text of every message of a parsed chat, split at newlines as
    the page does for the height of its text area, is a first line and
    further lines that are never empty, none with whitespace at either
    end; the height is 100 or 30 per line, whichever is larger. *)
Theorem parsed_text_lines (ucd : UnicodeData) (chat_text : str) :
  Forall (fun m => exists first rest,
            Py.split 10%N (message m) = first :: rest
            /\ stripped first
            /\ Forall (fun p => stripped p /\ p <> []) rest
            /\ text_area_height m = Z.max 100 (30 * (1 + Z.of_nat (length rest))))
         (parse_whatsapp_chat chat_text).
Proof.
  eapply Forall_impl; [|apply parse_tidy]. intros m H.
  apply tidy_lines in H. destruct H as (first & rest & E & H1 & H2).
  exists first, rest. repeat split; try assumption.
  unfold text_area_height. rewrite E. cbn [length]. f_equal. lia.
Qed.

(** X4. The lines of a message come back: for a header line followed by
    continuation lines, the text of its message split at newlines is the
    header's text followed by the non-blank continuation lines, stripped,
    in their order. *)
Theorem message_lines_round_trip
  (ucd : UnicodeData) (chat_text : str) (pre : list str) (line : str)
  (conts rest : list str) (h : msg) :
  Py.split 10%N chat_text = pre ++ line :: conts ++ rest ->
  header line = Some h ->
  Forall (fun l => header l = None) conts ->
  starts_afresh rest ->
  exists m,
    parse_whatsapp_chat chat_text = parse_lines pre ++ [m] ++ parse_lines rest
    /\ Py.split 10%N (message m) = message h :: map Py.strip (filter nonblank conts)
    /\ text_area_height m
       = Z.max 100 (30 * (1 + Z.of_nat (length (filter nonblank conts)))).
Proof.
  intros Hs Hh Hc Hr.
  exists (with_text h (message h ++ continuation conts)).
  split; [|assert (E : Py.split 10%N (message h ++ continuation conts)
                       = message h :: map Py.strip (filter nonblank conts)); [|split]].
  - unfold parse_whatsapp_chat. rewrite Hs. now apply parse_lines_message.
  - unfold continuation. rewrite <- map_map, <- join_concat.
    apply split_join. constructor.
    + now apply (header_message_tidy line h).
    + pose proof (split_no_sep 10%N chat_text) as H. rewrite Hs in H.
      apply Forall_app in H. destruct H as [_ H].
      inversion H as [|? ? _ H']; subst. apply Forall_app in H'.
      destruct H' as [H' _].
      apply (incl_Forall (incl_filter nonblank _)) in H'.
      rewrite Forall_map. eapply Forall_impl; [|exact H'].
      intros l Hl. now apply strip_free.
  - exact E.
  - unfold text_area_height. cbn [with_text message]. rewrite E.
    cbn [length]. rewrite length_map. f_equal. lia.
Qed.

Lemma message_lines_round_trip_witness :
  exists m,
    @parse_whatsapp_chat ascii_bengali chat_with_banner
    = @parse_lines ascii_bengali [banner] ++ [m] ++ @parse_lines ascii_bengali [bob_line]
    /\ Py.split 10%N (message m)
       = u "one" :: map Py.strip (filter nonblank [u "  two  "; u ""; u "three"])
    /\ text_area_height m
       = Z.max 100 (30 * (1 + Z.of_nat (length (filter nonblank
                                                  [u "  two  "; u ""; u "three"])))).
Proof.
  apply (message_lines_round_trip ascii_bengali chat_with_banner
           [banner] alice_line [u "  two  "; u ""; u "three"] [bob_line]
           (mkmsg (u "1/2/2024") (u "9:05 am") (u "Alice") (u "one"))).
  - vm_compute. reflexivity.
  - vm_compute. reflexivity.
  - repeat constructor.
  - vm_compute. reflexivity.
Defined.

(** X5. Chats can be joined: when the second chat is empty, has blank
    lines only, or has a header line as its first non-blank line, the two
    chats joined by a newline give the messages of the first followed by
    the messages of the second. *)
Theorem parse_joined_chats (ucd : UnicodeData) (a b : str) :
  starts_afresh (filter nonblank (Py.split 10%N b)) ->
  parse_whatsapp_chat (a ++ [10%N] ++ b)
  = parse_whatsapp_chat a ++ parse_whatsapp_chat b.
Proof.
  intros H. unfold parse_whatsapp_chat. cbn [app]. rewrite split_app_sep.
  rewrite <- (parse_lines_without_blank (_ ++ _)), filter_app.
  rewrite <- (parse_lines_without_blank (Py.split 10%N a)).
  rewrite <- (parse_lines_without_blank (Py.split 10%N b)).
  rewrite (parse_lines_finish (_ ++ _)), fold_left_app.
  destruct (fold_left parse_step (filter nonblank (Py.split 10%N a)) ([], None))
    as [ms cur] eqn:E.
  rewrite finish_starts_afresh by assumption.
  rewrite (parse_lines_finish (filter nonblank (Py.split 10%N a))), E. reflexivity.
Qed.

Lemma parse_joined_chats_witness :
  @parse_whatsapp_chat ascii_bengali (first_chat ++ [10%N] ++ second_chat)
  = @parse_whatsapp_chat ascii_bengali first_chat
    ++ @parse_whatsapp_chat ascii_bengali second_chat
  /\ @parse_whatsapp_chat ascii_bengali (first_chat ++ [10%N] ++ [])
     = @parse_whatsapp_chat ascii_bengali first_chat
       ++ @parse_whatsapp_chat ascii_bengali []
  /\ @parse_whatsapp_chat ascii_bengali (first_chat ++ [10%N] ++ blank_then_bob)
     = @parse_whatsapp_chat ascii_bengali first_chat
       ++ @parse_whatsapp_chat ascii_bengali blank_then_bob.
Proof.
  split; [|split].
  - apply (parse_joined_chats ascii_bengali first_chat second_chat).
    vm_compute. reflexivity.
  - apply (parse_joined_chats ascii_bengali first_chat []).
    vm_compute. exact I.
  - apply (parse_joined_chats ascii_bengali first_chat blank_then_bob).
    vm_compute. reflexivity.
Defined.

(** ** More on the ratio test *)

(** A ratio of at least a quarter passes the test at any size: rounding
    the quotient never takes it below [0.25]. *)
Lemma truediv_ge_quarter_any a b :
  0 < a <= b -> b <= 4 * a ->
  exists f, Py.truediv a b = inr f /\ Py.float_ge f Py.quarter = true.
Proof.
  intros Hab Hq. unfold Py.truediv.
  destruct (Z.eqb_spec b 0); [lia|].
  destruct (Z.eqb_spec a 0); [lia|].
  rewrite (Z.abs_eq a), (Z.abs_eq b) by lia.
  destruct (floor_log2_ratio a b ltac:(lia)) as [Hfl HT].
  set (fl := if Py.shl b (Z.log2 a - Z.log2 b) <=? Py.shl a (- (Z.log2 a - Z.log2 b))
             then Z.log2 a - Z.log2 b else Z.log2 a - Z.log2 b - 1) in *.
  assert (Hs : -2 <= fl).
  { destruct (Z.le_gt_cases (-2) fl) as [|Hlt]; [assumption|exfalso].
    assert (2 ^ 3 <= 2 ^ (- fl)) by (apply Z.pow_le_mono_r; lia).
    change (2 ^ 3) with 8 in *. nia. }
  rewrite (Z.max_l (fl - 52)) by lia.
  rewrite (shl_neg_exp b), (shl_nonneg_exp a) by lia.
  set (m := Py.round_half_even (a * 2 ^ (- (fl - 52))) b).
  rewrite (shl_neg_exp m), (shl_nonneg_exp (2 ^ 1024)) by lia.
  assert (EP : 2 ^ (- (fl - 52)) = 2 ^ (- fl) * 2 ^ 52).
  { rewrite <- Z.pow_add_r by lia. f_equal. lia. }
  set (T := 2 ^ (- fl)) in *.
  assert (HT1 : 1 <= T) by (apply pow2_ge_1; lia).
  assert (HT4 : T <= 4).
  { subst T. change 4 with (2 ^ 2). apply Z.pow_le_mono_r; lia. }
  assert (Hm : m = Py.round_half_even (a * T * 2 ^ 52) b).
  { subst m. rewrite EP. f_equal. lia. }
  pose proof (round_half_even_bounds (a * T * 2 ^ 52) b ltac:(lia)) as [Hq1 Hq2].
  rewrite <- Hm in Hq1, Hq2.
  assert (Hlo : 2 ^ 52 <= a * T * 2 ^ 52 / b).
  { apply Z.div_le_lower_bound; [lia|]. nia. }
  assert (Hqu : a * T * 2 ^ 52 / b <= 2 ^ 53).
  { apply Z.div_le_upper_bound; [lia|]. change (2 ^ 53) with (2 * 2 ^ 52). nia. }
  destruct (Z.leb_spec (2 ^ 1024 * 2 ^ (- (fl - 52))) m) as [Hov|_].
  { exfalso. rewrite EP in Hov.
    assert (2 ^ 53 + 1 < 2 ^ 1024 * (1 * 2 ^ 52)) by (vm_compute; reflexivity).
    assert (2 ^ 1024 * (1 * 2 ^ 52) <= 2 ^ 1024 * (T * 2 ^ 52)).
    { apply Z.mul_le_mono_nonneg_l; [vm_compute; discriminate|].
      apply Z.mul_le_mono_nonneg_r; [vm_compute; discriminate|lia]. }
    lia. }
  eexists. split; [reflexivity|].
  unfold Py.float_ge, Py.scaled, Py.quarter. cbn [Py.neg Py.sig Py.exp].
  replace (xorb (a <? 0) (b <? 0)) with false
    by (destruct (Z.ltb_spec a 0), (Z.ltb_spec b 0); simpl; lia).
  rewrite (Z.min_r (fl - 52) (-54)) by lia.
  replace (-54 - -54) with 0 by lia. rewrite Z.pow_0_r.
  assert (1 <= 2 ^ (fl - 52 - -54)) by (apply pow2_ge_1; lia).
  apply Z.leb_le. nia.
Qed.

Lemma truediv_zero b :
  b <> 0 -> exists f, Py.truediv 0 b = inr f /\ Py.float_ge f Py.quarter = false.
Proof.
  intros Hb. unfold Py.truediv. destruct (Z.eqb_spec b 0); [contradiction|].
  cbn. eexists. split; [reflexivity|].
  unfold Py.float_ge, Py.scaled. cbn. now destruct (b <? 0).
Qed.

Lemma count_chars_bangla_char text :
  0 < fst (count_chars text) ->
  exists c, In c text /\ counted c = true /\ is_bangla_char c = true.
Proof.
  induction text as [|c text IH]; [cbn; lia|].
  rewrite count_chars_cons. cbn [fst]. unfold count_step.
  destruct (counted c) eqn:Hc; [destruct (is_bangla_char c) eqn:Hb|]; cbn [fst];
    intros H.
  - exists c. split; [now left|auto].
  - destruct IH as (x & Hx & H'); [lia|]. exists x. split; [now right|auto].
  - destruct IH as (x & Hx & H'); [lia|]. exists x. split; [now right|auto].
Qed.

(** * Further theorems: the classifier *)

(** X6. A text is classified true only if it holds a Bengali character
    (U+0980..U+09FF) and no exclusion keyword; text in other scripts alone
    is never kept. *)
Theorem is_bangla_text_needs_bangla (ucd : UnicodeData) (text : str) :
  is_bangla_text text = inr true ->
  (exists c, In c text /\ is_bangla_char c = true)
  /\ 1 <= fst (count_chars text)
  /\ has_system_keyword text = false.
Proof.
  unfold is_bangla_text. intros H.
  destruct (negb (truthy text) || (len (Py.strip text) =? 0)); [discriminate|].
  destruct (has_system_keyword text); [discriminate|].
  pose proof (count_chars_bounds text) as [Hb _].
  pose proof (count_chars_bangla_char text) as Hc.
  destruct (count_chars text) as [b t]. cbn [fst snd] in *.
  destruct (Z.eqb_spec t 0); [discriminate|].
  assert (Hpos : 0 < b).
  { destruct (Z.eq_dec b 0) as [->|]; [|lia].
    destruct (truediv_zero t n) as (f & Hf & Hge). rewrite Hf in H. cbn in H.
    congruence. }
  destruct (Hc Hpos) as (c & Hin & _ & Hbc).
  split; [eauto|]. split; [lia|reflexivity].
Qed.

Lemma is_bangla_text_needs_bangla_witness :
  (exists c, In c hello_bn /\ is_bangla_char c = true)
  /\ 1 <= fst (count_chars hello_bn)
  /\ @has_system_keyword ascii_bengali hello_bn = false.
Proof.
  apply (is_bangla_text_needs_bangla ascii_bengali hello_bn).
  vm_compute. reflexivity.
Defined.

(** X7. With no exclusion keyword, a text in which at least a quarter of
    the counted characters are Bengali is classified true, whatever its
    length; in particular a text whose counted characters are all
    Bengali. *)
Theorem is_bangla_text_quarter_suffices
  (ucd : UnicodeData) (text : str) (bangla_chars total_chars : Z) :
  count_chars text = (bangla_chars, total_chars) ->
  has_system_keyword text = false ->
  0 < total_chars <= 4 * bangla_chars ->
  is_bangla_text text = inr true.
Proof.
  intros Hc Hk Ht.
  rewrite (is_bangla_text_counts text _ _ Hc Hk) by lia.
  pose proof (count_chars_bounds text) as [Hb _]. rewrite Hc in Hb. cbn [fst snd] in Hb.
  destruct (truediv_ge_quarter_any bangla_chars total_chars) as (f & Hf & Hge);
    [lia|lia|].
  rewrite Hf. cbn. now rewrite Hge.
Qed.

Lemma is_bangla_text_quarter_suffices_witness :
  @is_bangla_text ascii_bengali how_are_you_bn = inr true
  /\ @is_bangla_text ascii_bengali one_of_four = inr true.
Proof.
  split.
  - apply (is_bangla_text_quarter_suffices ascii_bengali how_are_you_bn 8 8);
      [reflexivity|reflexivity|lia].
  - apply (is_bangla_text_quarter_suffices ascii_bengali one_of_four 1 4);
      [reflexivity|reflexivity|lia].
Defined.

(** ** Comparing and sorting strings *)

Lemma eqb_eq a b : Py.eqb a b = true <-> a = b.
Proof. unfold Py.eqb. destruct (list_eq_dec N.eq_dec a b); split; congruence. Qed.

Lemma eqb_refl a : Py.eqb a a = true.
Proof. now apply eqb_eq. Qed.

Lemma ltb_irrefl a : Py.ltb a a = false.
Proof.
  induction a as [|x a IH]; [reflexivity|]. cbn.
  now rewrite N.ltb_irrefl, N.eqb_refl, IH.
Qed.

Lemma ltb_trans a : forall b c,
  Py.ltb a b = true -> Py.ltb b c = true -> Py.ltb a c = true.
Proof.
  induction a as [|x a IH]; intros [|y b] [|z c]; cbn; try discriminate; auto.
  intros H1 H2. apply orb_prop in H1. apply orb_prop in H2.
  rewrite ?andb_true_iff, ?N.ltb_lt, ?N.eqb_eq in *.
  apply orb_true_iff. rewrite andb_true_iff, N.ltb_lt, N.eqb_eq.
  destruct H1 as [H1|[-> H1]], H2 as [H2|[-> H2]]; eauto; left; lia.
Qed.

Lemma ltb_total a : forall b,
  Py.ltb a b = false -> Py.ltb b a = false -> a = b.
Proof.
  induction a as [|x a IH]; intros [|y b]; cbn; try discriminate; auto.
  intros H1 H2. apply orb_false_elim in H1. apply orb_false_elim in H2.
  destruct H1 as [H1 H1'], H2 as [H2 H2'].
  apply N.ltb_ge in H1. apply N.ltb_ge in H2.
  assert (x = y) by lia. subst y.
  rewrite N.eqb_refl in *. cbn in *. f_equal. now apply IH.
Qed.

Lemma insert_in x l y : In y (Py.insert x l) <-> y = x \/ In y l.
Proof.
  induction l as [|z l IH]; cbn; [intuition|].
  destruct (Py.ltb z x); cbn; rewrite ?IH; intuition.
Qed.

Lemma sorted_in l y : In y (Py.sorted l) <-> In y l.
Proof.
  induction l as [|x l IH]; cbn; [tauto|]. rewrite insert_in, IH. intuition.
Qed.

Lemma insert_ascending x l :
  ascending l -> ~ In x l -> ascending (Py.insert x l).
Proof.
  unfold ascending. induction 1 as [|z l Hl IH Hz]; intros Hx; cbn.
  - repeat constructor.
  - destruct (Py.ltb z x) eqn:E.
    + constructor; [apply IH; intros H; apply Hx; now right|].
      apply Forall_forall. intros y Hy. apply insert_in in Hy.
      destruct Hy as [->|Hy]; [assumption|].
      rewrite Forall_forall in Hz. auto.
    + assert (Hxz : Py.ltb x z = true).
      { destruct (Py.ltb x z) eqn:E'; [reflexivity|].
        exfalso. apply Hx. left. symmetry. now apply ltb_total. }
      constructor; [now constructor|]. constructor; [assumption|].
      eapply Forall_impl; [|exact Hz]. intros y Hy. now apply ltb_trans with z.
Qed.

Lemma sorted_ascending l : NoDup l -> ascending (Py.sorted l).
Proof.
  induction 1 as [|x l Hx _ IH]; cbn; [constructor|].
  apply insert_ascending; [assumption|]. now rewrite sorted_in.
Qed.

(** Two ascending lists with the same elements are the same list. *)
Lemma ascending_unique l1 : forall l2,
  ascending l1 -> ascending l2 -> (forall x, In x l1 <-> In x l2) -> l1 = l2.
Proof.
  unfold ascending. induction l1 as [|a l1 IH]; intros [|b l2] H1 H2 H.
  - reflexivity.
  - exfalso. apply (H b). now left.
  - exfalso. apply (H a). now left.
  - inversion H1 as [|? ? H1' Ha]; subst. inversion H2 as [|? ? H2' Hb]; subst.
    rewrite Forall_forall in Ha, Hb.
    assert (a = b).
    { destruct (proj1 (H a) (or_introl eq_refl)) as [->|Hin]; [reflexivity|].
      destruct (proj2 (H b) (or_introl eq_refl)) as [->|Hin']; [reflexivity|].
      pose proof (ltb_trans _ _ _ (Hb a Hin) (Ha b Hin')) as C.
      now rewrite ltb_irrefl in C. }
    subst b. f_equal. apply IH; try assumption.
    intros x. split; intros Hx.
    + destruct (proj1 (H x) (or_intror Hx)) as [->|]; [|assumption].
      pose proof (Ha x Hx) as C. now rewrite ltb_irrefl in C.
    + destruct (proj2 (H x) (or_intror Hx)) as [->|]; [|assumption].
      pose proof (Hb x Hx) as C. now rewrite ltb_irrefl in C.
Qed.

Lemma filter_idem {A} (p : A -> bool) l : filter p (filter p l) = filter p l.
Proof.
  induction l as [|x l IH]; [reflexivity|]. cbn. destruct (p x) eqn:E; [|exact IH].
  cbn. now rewrite E, IH.
Qed.

Lemma filter_comm {A} (p q : A -> bool) l :
  filter p (filter q l) = filter q (filter p l).
Proof.
  induction l as [|x l IH]; [reflexivity|]. cbn.
  destruct (p x) eqn:Ep, (q x) eqn:Eq; cbn; rewrite ?Ep, ?Eq, IH; reflexivity.
Qed.

Lemma filter_length_le {A} (p : A -> bool) l : (length (filter p l) <= length l)%nat.
Proof. induction l as [|x l IH]; cbn; [lia|]. destruct (p x); cbn; lia. Qed.

Lemma subseq_refl {A} (l : list A) : subseq l l.
Proof. induction l; now constructor. Qed.

Lemma subseq_trans {A} (l1 l2 l3 : list A) :
  subseq l1 l2 -> subseq l2 l3 -> subseq l1 l3.
Proof.
  intros H12 H23. revert l1 H12.
  induction H23 as [|x l2 l3 _ IH|x l2 l3 _ IH]; intros l1 H12.
  - exact H12.
  - constructor. now apply IH.
  - inversion H12; subst; constructor; now apply IH.
Qed.

Lemma all_senders_members (l : list msg) :
  ascending (all_senders l)
  /\ (forall s, In s (all_senders l) -> exists m, In m l /\ sender m = s)
  /\ (forall m, In m l -> In (sender m) (all_senders l)).
Proof.
  unfold all_senders, Py.set_list. split; [apply sorted_ascending, NoDup_nodup|].
  split.
  - intros s. rewrite sorted_in, nodup_In, in_map_iff. firstorder.
  - intros m Hm. rewrite sorted_in, nodup_In. now apply in_map.
Qed.

(** * Further theorems: the filter and the page *)

(** X8. [filter_bangla_messages] works message by message: the result for
    two lists one after the other is the two results one after the other,
    filtering a result again changes nothing, and a result is never
    longer than the input. *)
Theorem filter_bangla_messages_compose (ucd : UnicodeData) (l1 l2 : list msg) :
  exists k1 k2,
    filter_bangla_messages l1 = inr k1
    /\ filter_bangla_messages l2 = inr k2
    /\ filter_bangla_messages (l1 ++ l2) = inr (k1 ++ k2)
    /\ filter_bangla_messages k1 = inr k1
    /\ (length k1 <= length l1)%nat.
Proof.
  exists (filter is_bangla l1), (filter is_bangla l2).
  rewrite !filter_bangla_messages_filter, filter_app, filter_idem.
  repeat split. apply filter_length_le.
Qed.

(** X9. The senders offered by the selector are the senders of the
    messages, each once, in strictly ascending order of code points; the
    order in which the set of senders is listed before sorting does not
    matter. *)
Theorem all_senders_sorted_unique (bangla_messages : list msg) :
  ascending (all_senders bangla_messages)
  /\ (forall s, In s (all_senders bangla_messages)
                <-> exists m, In m bangla_messages /\ sender m = s)
  /\ (forall l, NoDup l ->
                (forall s, In s l <-> In s (map sender bangla_messages)) ->
                Py.sorted l = all_senders bangla_messages).
Proof.
  unfold all_senders, Py.set_list.
  assert (Ha : ascending (Py.sorted (nodup (list_eq_dec N.eq_dec)
                                           (map sender bangla_messages))))
    by (apply sorted_ascending, NoDup_nodup).
  split; [exact Ha|]. split.
  - intros s. rewrite sorted_in, nodup_In, in_map_iff. firstorder.
  - intros l Hl H. apply ascending_unique; [now apply sorted_ascending|exact Ha|].
    intros s. now rewrite !sorted_in, nodup_In.
Qed.

Section PageFacts.
Context {ucd : UnicodeData}.

Lemma apply_filters_unfold search_term selected_sender l :
  apply_filters search_term selected_sender l =
  filter (fun m => negb (negb (Py.eqb selected_sender everyone))
                   || Py.eqb (sender m) selected_sender)
         (filter (fun m => negb (truthy search_term)
                           || Py.contains (lower search_term) (lower (message m))) l).
Proof.
  unfold apply_filters.
  assert (Hid : forall (k : list msg), filter (fun _ => true) k = k).
  { induction k as [|x k IH]; [reflexivity|]. cbn. now rewrite IH. }
  destruct (truthy search_term), (negb (Py.eqb selected_sender everyone));
    cbn [negb orb]; now rewrite ?Hid.
Qed.

End PageFacts.

(** X10. The two page filters: with no search term and the entry
    "everyone" selected the list is shown as it is, also when a sender is
    called "everyone"; searching and selecting a sender can be done in
    either order, applying the same filters twice changes nothing, and
    what is shown is a part of the list in its order. *)
Theorem apply_filters_laws
  (ucd : UnicodeData) (search_term selected_sender : str) (l : list msg) :
  apply_filters [] everyone l = l
  /\ apply_filters search_term selected_sender l
     = apply_filters search_term everyone (apply_filters [] selected_sender l)
  /\ apply_filters search_term selected_sender l
     = apply_filters [] selected_sender (apply_filters search_term everyone l)
  /\ apply_filters search_term selected_sender
       (apply_filters search_term selected_sender l)
     = apply_filters search_term selected_sender l
  /\ subseq (apply_filters search_term selected_sender l) l.
Proof.
  split; [reflexivity|].
  assert (Hid : forall (k : list msg), filter (fun _ => true) k = k).
  { induction k as [|x k IH]; [reflexivity|]. cbn. now rewrite IH. }
  split; [|split; [|split]].
  - unfold apply_filters. cbn [truthy]. rewrite eqb_refl. cbn [negb].
    destruct (truthy search_term), (negb (Py.eqb selected_sender everyone));
      try reflexivity. apply filter_comm.
  - unfold apply_filters. cbn [truthy]. rewrite eqb_refl. cbn [negb].
    destruct (truthy search_term), (negb (Py.eqb selected_sender everyone));
      reflexivity.
  - rewrite !apply_filters_unfold.
    set (p := fun m => negb (negb (Py.eqb selected_sender everyone))
                       || Py.eqb (sender m) selected_sender).
    set (q := fun m => negb (truthy search_term)
                       || Py.contains (lower search_term) (lower (message m))).
    rewrite (filter_comm q p (filter q l)), (filter_idem p), (filter_idem q).
    reflexivity.
  - unfold apply_filters.
    destruct (truthy search_term), (negb (Py.eqb selected_sender everyone)).
    + eapply subseq_trans; apply subseq_filter.
    + apply subseq_filter.
    + apply subseq_filter.
    + apply subseq_refl.
Qed.

(** X11. Every entry of the selector shows something: for a list that is
    not empty, selecting any offered entry with no search term shows at
    least one message, and for an entry other than "everyone" exactly the
    messages of that sender. *)
Theorem selected_sender_shows_messages
  (ucd : UnicodeData) (selected_sender : str) (l : list msg) :
  l <> [] ->
  In selected_sender (sender_options l) ->
  apply_filters [] selected_sender l <> []
  /\ (selected_sender <> everyone ->
      forall m, In m (apply_filters [] selected_sender l)
                <-> In m l /\ sender m = selected_sender).
Proof.
  intros Hl Hin. unfold apply_filters. cbn [truthy]. split.
  - destruct (Py.eqb selected_sender everyone) eqn:E; cbn [negb]; [assumption|].
    destruct Hin as [Hin|Hin]; [rewrite <- Hin, eqb_refl in E; discriminate|].
    apply (proj1 (proj2 (all_senders_members l)) selected_sender) in Hin.
    destruct Hin as (m & Hm & Hs).
    intros C.
    assert (In m (filter (fun m => Py.eqb (sender m) selected_sender) l)).
    { apply filter_In. split; [assumption|]. now apply eqb_eq. }
    rewrite C in H. contradiction.
  - intros Hne m.
    destruct (Py.eqb selected_sender everyone) eqn:E;
      [apply eqb_eq in E; contradiction|].
    cbn [negb]. rewrite filter_In, eqb_eq. tauto.
Qed.

Lemma selected_sender_shows_messages_witness :
  @apply_filters ascii_bengali [] (u "Bob") three_senders <> []
  /\ (u "Bob" <> everyone ->
      forall m, In m (@apply_filters ascii_bengali [] (u "Bob") three_senders)
                <-> In m three_senders /\ sender m = u "Bob").
Proof.
  apply (selected_sender_shows_messages ascii_bengali (u "Bob") three_senders).
  - discriminate.
  - vm_compute. tauto.
Defined.

(** X12. [format_phone_number] returns the sender as it is, whether or
    not it starts with [+880]. *)
Theorem format_phone_number_unchanged (sender : str) :
  format_phone_number sender = sender
  /\ format_phone_number (u "+880 1711-000000") = u "+880 1711-000000".
Proof.
  split; [|reflexivity]. unfold format_phone_number.
  now destruct (Py.startswith (u "+880") sender).
Qed.

(** ** The percentage *)

(** The product against the kernel's floats: [ratio * 100] for every pair
    of counters up to 40, and a few products near the precision of a
    float. *)
Example fmul_is_binary64_product :
  forallb (fun b => forallb (fun a =>
             match Py.truediv a b with
             | inr r => Py.same_product_as_binary64 r (Py.mkfloat false 100 0)
             | inl _ => false
             end) (map Z.of_nat (seq 0 41)))
          (map Z.of_nat (seq 1 40)) = true
  /\ forallb (fun '(x, y) => Py.same_product_as_binary64 x y)
       [ (Py.mkfloat false (2 ^ 53 - 1) (-53), Py.mkfloat false 100 0);
         (Py.mkfloat false (2 ^ 53 - 1) (-60), Py.mkfloat true (2 ^ 52 + 1) 3);
         (Py.mkfloat true 3 (-1074), Py.mkfloat false 1 (-1));
         (Py.mkfloat false 5 (-1074), Py.mkfloat false 1 (-1));
         (Py.mkfloat false (2 ^ 52 + 3) (-600), Py.mkfloat false (2 ^ 52 + 5) (-500)) ]
     = true.
Proof. split; vm_compute; reflexivity. Qed.

(** A quotient of at most [c] rounds to a float of at most [c]. *)
Lemma truediv_le_int a b c :
  0 < a -> 0 < b -> a <= c * b -> 0 < c < 2 ^ 50 ->
  exists g, Py.truediv a b = inr g
            /\ Py.neg g = false /\ Py.exp g <= 0
            /\ 0 <= Py.sig g <= c * 2 ^ (- Py.exp g).
Proof.
  intros Ha Hb Hab Hc. unfold Py.truediv.
  destruct (Z.eqb_spec b 0); [lia|]. destruct (Z.eqb_spec a 0); [lia|].
  rewrite (Z.abs_eq a), (Z.abs_eq b) by lia.
  set (k := Z.log2 a - Z.log2 b).
  assert (Hk : k <= 50).
  { assert (Z.log2 a <= Z.log2 (c * b)) by (apply Z.log2_le_mono; lia).
    pose proof (Z.log2_mul_above c b ltac:(lia) ltac:(lia)).
    assert (Z.log2 c < 50) by (apply Z.log2_lt_pow2; lia). lia. }
  set (fl := if Py.shl b k <=? Py.shl a (- k) then k else k - 1).
  assert (Hfl : fl <= 50) by (subst fl; destruct (_ <=? _); lia).
  set (e := Z.max (fl - 52) (-1074)).
  assert (He : -1074 <= e <= -2) by (subst e; lia).
  rewrite (shl_neg_exp b e), (shl_nonneg_exp a (- e)) by lia.
  set (m := Py.round_half_even (a * 2 ^ (- e)) b).
  rewrite (shl_neg_exp m e), (shl_nonneg_exp _ (- e)) by lia.
  assert (HP : 0 < 2 ^ (- e)) by (apply Z.pow_pos_nonneg; lia).
  set (P := 2 ^ (- e)) in *.
  assert (Hm : 0 <= m <= c * P).
  { pose proof (round_half_even_bounds (a * P) b ltac:(lia)) as [Hm1 Hm2].
    fold m in Hm1, Hm2.
    assert (Hq0 : 0 <= a * P / b) by (apply Z.div_pos; nia).
    assert (Hq : a * P / b <= c * P).
    { apply Z.div_le_upper_bound; [lia|]. nia. }
    split; [lia|].
    destruct (Z.eq_dec (a * P / b) (c * P)) as [Eq|Ne]; [|lia].
    (* the quotient is exact: nothing to round *)
    pose proof (Z.div_mod (a * P) b ltac:(lia)) as HD.
    pose proof (Z.mod_pos_bound (a * P) b ltac:(lia)) as HR.
    assert (Hr : (a * P) mod b = 0) by nia.
    subst m. unfold Py.round_half_even. rewrite Hr, Eq.
    destruct (Z.ltb_spec b (2 * 0)); [lia|].
    destruct (Z.eqb_spec b (2 * 0)); [lia|]. cbn [orb andb]. lia. }
  assert (H2 : 2 ^ 50 < 2 ^ 1024) by (apply Z.pow_lt_mono_r; lia).
  destruct (Z.leb_spec (2 ^ 1024 * P) m); [nia|].
  eexists. split; [reflexivity|]. cbn [Py.neg Py.sig Py.exp].
  repeat split; try lia.
  destruct (Z.ltb_spec a 0), (Z.ltb_spec b 0); cbn; lia.
Qed.

Lemma truediv_zero_value b :
  0 < b -> Py.truediv 0 b = inr (Py.mkfloat false 0 0).
Proof.
  intros Hb. unfold Py.truediv. destruct (Z.eqb_spec b 0); [lia|]. cbn.
  destruct (Z.ltb_spec b 0); [lia|reflexivity].
Qed.

(** [ratio * 100] for a ratio of at most one. *)
Lemma fmul_hundred r :
  Py.neg r = false -> Py.exp r <= 0 -> 0 <= Py.sig r <= 2 ^ (- Py.exp r) ->
  exists x, Py.fmul r (Py.mkfloat false 100 0) = Py.Finite x
            /\ Py.float_ge x (Py.mkfloat false 0 0) = true
            /\ Py.float_ge (Py.mkfloat false 100 0) x = true.
Proof.
  intros Hn He Hs. unfold Py.fmul. cbn [Py.neg Py.sig Py.exp]. rewrite Hn.
  destruct (Z.eqb_spec (Py.sig r) 0) as [E|E]; cbn [orb xorb].
  - eexists. split; [reflexivity|]. split; reflexivity.
  - rewrite Z.add_0_r, (shl_neg_exp _ (Py.exp r)), (shl_nonneg_exp 1) by lia.
    assert (HP : 0 < 2 ^ (- Py.exp r)) by (apply Z.pow_pos_nonneg; lia).
    assert (Hc : 0 < 100 < 2 ^ 50) by (split; [lia|vm_compute; reflexivity]).
    destruct (truediv_le_int (Py.sig r * 100) (1 * 2 ^ (- Py.exp r)) 100
                ltac:(lia) ltac:(lia) ltac:(lia) Hc)
      as (g & Hg & Hgn & Hge & Hgs).
    rewrite Hg. eexists. split; [reflexivity|].
    unfold Py.float_ge, Py.scaled. cbn [Py.neg Py.sig Py.exp].
    assert (HQ : 0 < 2 ^ (- Py.exp g)) by (apply Z.pow_pos_nonneg; lia).
    split.
    + rewrite (Z.min_l (Py.exp g) 0) by lia. apply Z.leb_le.
      rewrite Z.sub_diag, Z.pow_0_r. replace (0 - Py.exp g) with (- Py.exp g) by lia.
      lia.
    + rewrite (Z.min_r 0 (Py.exp g)) by lia. apply Z.leb_le.
      rewrite Z.sub_diag, Z.pow_0_r. replace (0 - Py.exp g) with (- Py.exp g) by lia.
      lia.
Qed.

(** X13. The percentage of Bangla messages: for the two lists of the
    page, an empty chat gives the integer 0 and no division by zero;
    otherwise the value is a float between 0 and 100. *)
Theorem percentage_in_range (ucd : UnicodeData) (all_messages : list msg) :
  exists bangla_messages,
    filter_bangla_messages all_messages = inr bangla_messages
    /\ (all_messages = [] ->
        percentage all_messages bangla_messages = inr (Py.Int 0))
    /\ (all_messages <> [] ->
        exists x,
          percentage all_messages bangla_messages = inr (Py.Float (Py.Finite x))
          /\ Py.float_ge x (Py.mkfloat false 0 0) = true
          /\ Py.float_ge (Py.mkfloat false 100 0) x = true).
Proof.
  exists (filter is_bangla all_messages).
  split; [apply filter_bangla_messages_filter|].
  split; [intros ->; reflexivity|]. intros Hne.
  pose proof (filter_length_le is_bangla all_messages) as Hle.
  assert (Hall : 0 < Z.of_nat (length all_messages)).
  { destruct all_messages; [contradiction|]. cbn [length]. lia. }
  unfold percentage.
  replace (match all_messages with
           | [] => ret (Py.Int 0)
           | _ :: _ =>
               ratio <- Py.truediv (Z.of_nat (length (filter is_bangla all_messages)))
                                   (Z.of_nat (length all_messages)) ;;
               ret (Py.Float (Py.fmul ratio (Py.mkfloat false 100 0)))
           end)
    with (ratio <- Py.truediv (Z.of_nat (length (filter is_bangla all_messages)))
                              (Z.of_nat (length all_messages)) ;;
          ret (Py.Float (Py.fmul ratio (Py.mkfloat false 100 0))) : Py.result Py.number)
    by (destruct all_messages; [contradiction|reflexivity]).
  destruct (Z.eq_dec (Z.of_nat (length (filter is_bangla all_messages))) 0) as [E|E].
  - rewrite E, truediv_zero_value by assumption. cbn.
    eexists. split; [reflexivity|]. split; reflexivity.
  - assert (Hc : 0 < 1 < 2 ^ 50) by (split; [lia|vm_compute; reflexivity]).
    assert (H1 : 0 < Z.of_nat (length (filter is_bangla all_messages))) by lia.
    assert (H2 : Z.of_nat (length (filter is_bangla all_messages))
                 <= 1 * Z.of_nat (length all_messages)) by lia.
    destruct (truediv_le_int _ _ 1 H1 Hall H2 Hc) as (r & Hr & Hn & He & Hs).
    rewrite Hr. cbn.
    destruct (fmul_hundred r Hn He) as (x & Hx & H0 & H100); [lia|].
    rewrite Hx. eauto.
Qed.

(** ** The simple export *)





Section ExportFacts.
Context {ucd : UnicodeData}.



End ExportFacts.


